(** * The Manus / IsaacLab bridge: hand-off slot, frame assembly and flattening

    A shallow embedding of [bridge.cpp] / [bridge.hpp]:

    - the C entry points [bridge_create], [poll], and the members
      [Bridge::Bridge], [Bridge::~Bridge], [Bridge::Poll] and
      [Bridge::OnRawSkeletonStreamCallback];
    - the free store ([new] / [delete] of [ClientRawSkeletonCollection])
      as an explicit heap with a log of the objects destroyed;
    - [uint32_t] arithmetic as [Z] with its wrap-around written out;
    - indexing outside a [std::vector] or outside the caller's buffer,
      dereferencing a dangling pointer and deleting twice are undefined
      behaviour in C++ and are the outcome [UB] here.

    The mutex is not modelled: every access to the two snapshot pointers
    happens inside a lock/unlock pair, so the callback's publication and
    the swap at the head of [Bridge::Poll] are atomic steps of the model. *)

From Stdlib Require Import ZArith List Lia Bool.
From stdpp Require Import strings.
From stdpp Require Import base option list gmap.
Import ListNotations.

Local Open Scope Z_scope.

#[local] Set Warnings "-clear-no-such-hyp".

(** ** Machine integers *)

Module U32.

Definition modulus : Z := 2 ^ 32.

(** Conversion to [uint32_t]. *)
Definition wrap (z : Z) : Z := z mod modulus.

(** [a + b] on [uint32_t] operands. *)
Definition add (a b : Z) : Z := wrap (a + b).

(** The values of the type. *)
Definition in_range (z : Z) : Prop := 0 <= z < modulus.

End U32.

(** ** Outcomes *)

(** A call either completes with a value or has undefined behaviour. *)
Inductive outcome (A : Type) : Type :=
| Ok (a : A)
| UB.
Arguments Ok {A} a.
Arguments UB {A}.

Definition obind {A B : Type} (m : outcome A) (k : A -> outcome B) : outcome B :=
  match m with
  | Ok a => k a
  | UB => UB
  end.

Notation "'let!' p ':=' m 'in' k" := (obind m (fun p => k))
  (at level 10, p pattern, m at level 100, k at level 200, only parsing).

(** ** SDK types *)

(** Modelled from the spec: [ManusSDKTypes.h] is not part of the sources.
    A [float] is kept as its 32-bit pattern; the bridge only copies it. *)
Definition float32 : Type := Z.

(** Modelled from the spec: [ManusVec3], three floats. *)
Record ManusVec3 : Type := { vx : float32; vy : float32; vz : float32 }.

(** Modelled from the spec: [ManusQuaternion], four floats. *)
Record ManusQuaternion : Type :=
  { qw : float32; qx : float32; qy : float32; qz : float32 }.

(** Modelled from the spec: [ManusTransform], of which [Bridge::Poll]
    reads [position] and [rotation]. *)
Record ManusTransform : Type :=
  { position : ManusVec3; rotation : ManusQuaternion; scale : ManusVec3 }.

(** Modelled from the spec: [SkeletonNode]. *)
Record SkeletonNode : Type := { id : Z; transform : ManusTransform }.

(** Modelled from the spec: [NodeInfo], of which [Bridge::Poll] reads
    [nodeId] and [side]. *)
Record NodeInfo : Type := { nodeId : Z; side : Z }.

(** Modelled from the spec: [RawSkeletonInfo]. *)
Record RawSkeletonInfo : Type :=
  { gloveId : Z; nodesCount : Z; publishTime : Z }.

(** Modelled from the spec: [SkeletonStreamInfo], the callback's argument. *)
Record SkeletonStreamInfo : Type :=
  { si_publishTime : Z; skeletonsCount : Z }.

(** Modelled from the spec: [SDKReturnCode]; the bridge compares it with
    [SDKReturnCode_Success] only. *)
Inductive SDKReturnCode : Type :=
| SDKReturnCode_Success
| SDKReturnCode_Failure (code : Z).

(** ** Types of [bridge.hpp] *)

Record ManusNodePose : Type :=
  { glove_id : Z;
    node_id : Z;
    pose_side : Z;
    pose_position : ManusVec3;
    orientation : ManusQuaternion }.

Record ClientRawSkeleton : Type :=
  { info : RawSkeletonInfo; nodes : list SkeletonNode }.

Record ClientRawSkeletonCollection : Type :=
  { skeletons : list ClientRawSkeleton }.

(** A pointer to a [ClientRawSkeletonCollection]. The pointee is named by
    the number of the [new] that created it, so that two snapshots are
    never confused even when an allocator would reuse an address.
    [None] is [nullptr]. *)
Abbreviation ptr := nat.

Record Bridge : Type :=
  { m_NextRawSkeleton : option ptr;
    m_RawSkeleton : option ptr }.

(** ** The free store *)

Record Heap : Type :=
  { live : gmap ptr ClientRawSkeletonCollection;
    created : nat;
    destroyed : list ptr }.

Definition heap_empty : Heap := {| live := ∅; created := 0%nat; destroyed := [] |}.

(** [new ClientRawSkeletonCollection()] followed by filling it in. *)
Definition heap_new (c : ClientRawSkeletonCollection) (h : Heap) : ptr * Heap :=
  (created h,
   {| live := <[created h := c]> (live h);
      created := S (created h);
      destroyed := destroyed h |}).

(** [delete p]: nothing for [nullptr]; deleting an object that is not
    live is undefined. *)
Definition heap_delete (p : option ptr) (h : Heap) : outcome Heap :=
  match p with
  | None => Ok h
  | Some a =>
      match live h !! a with
      | Some _ =>
          Ok {| live := delete a (live h);
                created := created h;
                destroyed := a :: destroyed h |}
      | None => UB
      end
  end.

(** [*p] *)
Definition heap_deref (p : ptr) (h : Heap) : outcome ClientRawSkeletonCollection :=
  match live h !! p with
  | Some c => Ok c
  | None => UB
  end.

(** The process: the static [Bridge::s_Instance] and the free store.
    The bridge object itself is kept inside [s_Instance]. *)
Record Process : Type :=
  { s_Instance : option Bridge;
    heap : Heap }.

(** ** The SDK calls *)

(** [CoreSdk_GetRawSkeletonNodeInfoArray(gloveId, node_info, count)] as
    made by iteration [i] of the loop of [Bridge::Poll]: [None] for a
    return code other than success, otherwise the contents of
    [node_info[0 .. count-1]] after the call. The iteration number is an
    argument because the SDK may answer differently from call to call. *)
Definition NodeInfoLookup : Type := nat -> Z -> Z -> option (nat -> NodeInfo).

(** ** [Bridge::Poll] *)

(** The caller's array of [ManusNodePose]. *)
Abbreviation buffer_t := (list ManusNodePose).

Definition make_pose (t_GloveId : Z) (ni : NodeInfo) (node : SkeletonNode) : ManusNodePose :=
  {| glove_id := t_GloveId;
     node_id := nodeId ni;
     pose_side := side ni;
     pose_position := position (transform node);
     orientation := rotation (transform node) |}.

(** The inner loop, [for (j = 0; j < t_NodeCount; j++)]: [remaining] is
    [t_NodeCount - j]. *)
Fixpoint node_loop (t_GloveId : Z) (node_info : nat -> NodeInfo)
    (sk_nodes : list SkeletonNode) (remaining : nat) (j : nat)
    (buffer : buffer_t) (buffer_index : Z) : outcome (buffer_t * Z) :=
  match remaining with
  | O => Ok (buffer, buffer_index)
  | S remaining' =>
      match sk_nodes !! j with
      | None => UB
      | Some node =>
          match buffer !! Z.to_nat buffer_index with
          | None => UB
          | Some _ =>
              node_loop t_GloveId node_info sk_nodes remaining' (S j)
                (<[Z.to_nat buffer_index := make_pose t_GloveId (node_info j) node]> buffer)
                (U32.add buffer_index 1)
          end
      end
  end.

(** The outer loop, [for (i = 0; i < t_SkeletonCount; i++)], over the
    skeletons not yet visited. *)
Fixpoint skeleton_loop (sdk : NodeInfoLookup) (rest : list ClientRawSkeleton)
    (i : nat) (buffer_size : Z) (buffer : buffer_t) (buffer_index : Z)
    : outcome (buffer_t * Z) :=
  match rest with
  | [] => Ok (buffer, buffer_index)
  | sk :: rest' =>
      let t_GloveId := gloveId (info sk) in
      let t_NodeCount := nodesCount (info sk) in
      if buffer_size <? U32.add buffer_index t_NodeCount then
        Ok (buffer, buffer_index)                                   (* break *)
      else
        match sdk i t_GloveId t_NodeCount with
        | None =>
            skeleton_loop sdk rest' (S i) buffer_size buffer buffer_index  (* continue *)
        | Some node_info =>
            let! (buffer', buffer_index') :=
              node_loop t_GloveId node_info (nodes sk) (Z.to_nat t_NodeCount) 0
                buffer buffer_index in
            skeleton_loop sdk rest' (S i) buffer_size buffer' buffer_index'
        end
  end.

(** Lines 209-241: the flattening of the current snapshot. *)
Definition flatten (sdk : NodeInfoLookup) (c : ClientRawSkeletonCollection)
    (buffer_size : Z) (buffer : buffer_t) : outcome (buffer_t * Z) :=
  let t_SkeletonCount := U32.wrap (Z.of_nat (length (skeletons c))) in
  skeleton_loop sdk (take (Z.to_nat t_SkeletonCount) (skeletons c)) 0
    buffer_size buffer 0.

(** Lines 196-199: the swap under the lock. *)
Definition claim (b : Bridge) (h : Heap) : outcome (Bridge * Heap) :=
  let! h' := heap_delete (m_RawSkeleton b) h in
  Ok ({| m_NextRawSkeleton := None; m_RawSkeleton := m_NextRawSkeleton b |}, h').

(** [void Bridge::Poll(ManusNodePose *buffer, uint32_t buffer_size,
    uint32_t &count)]; the result is the bridge, the heap, the buffer
    and [count]. *)
Definition Poll (sdk : NodeInfoLookup) (b : Bridge) (h : Heap)
    (buffer : buffer_t) (buffer_size : Z)
    : outcome (Bridge * Heap * buffer_t * Z) :=
  let! (b', h') := claim b h in
  match m_RawSkeleton b' with
  | None => Ok (b', h', buffer, 0)
  | Some p =>
      let! c := heap_deref p h' in
      if Nat.eqb (length (skeletons c)) 0 then Ok (b', h', buffer, 0)
      else
        let! (buffer', buffer_index) := flatten sdk c buffer_size buffer in
        Ok (b', h', buffer', buffer_index)
  end.

(** ** The C entry point [poll] *)

(** What a call of [poll] leaves behind: the process, the caller's buffer
    and the caller's [*count] ([None] for a null pointer), and the value
    returned. *)
Record poll_result : Type :=
  { pr_process : Process;
    pr_buffer : option buffer_t;
    pr_count : option Z;
    pr_status : Z }.

(** [int poll(ManusNodePose *buffer, uint32_t buffer_size, uint32_t *count)];
    a null [buffer] or [count] is [None], otherwise the argument is what
    the pointer points at. *)
Definition poll (sdk : NodeInfoLookup) (w : Process)
    (buffer : option buffer_t) (buffer_size : Z) (count : option Z)
    : outcome poll_result :=
  match s_Instance w with
  | None =>
      Ok {| pr_process := w; pr_buffer := buffer; pr_count := count; pr_status := -1 |}
  | Some b =>
      match buffer, count with
      | Some buf, Some _ =>
          let! (b', h', buf', actual_count) := Poll sdk b (heap w) buf buffer_size in
          Ok {| pr_process := {| s_Instance := Some b'; heap := h' |};
                pr_buffer := Some buf';
                pr_count := Some actual_count;
                pr_status := if actual_count =? 0 then -2 else 0 |}
      | _, _ =>
          Ok {| pr_process := w; pr_buffer := buffer; pr_count := count; pr_status := -3 |}
      end
  end.

(** ** Construction and destruction *)

(** [Bridge::Bridge() { s_Instance = this; }], with the member
    initialisers of [bridge.hpp]. *)
Definition Bridge_ctor (w : Process) : Process :=
  {| s_Instance := Some {| m_NextRawSkeleton := None; m_RawSkeleton := None |};
     heap := heap w |}.

(** [Bridge::~Bridge() { s_Instance = nullptr; }] *)
Definition Bridge_dtor (w : Process) : Process :=
  {| s_Instance := None; heap := heap w |}.

(** [bridge_create]; [initialize_ok] says whether [Initialize()] returned
    [ClientReturnCode_Success]. *)
Definition bridge_create (initialize_ok : bool) (w : Process) : Process :=
  let w1 := Bridge_ctor w in
  if initialize_ok then w1 else Bridge_dtor w1.

Definition process_start : Process := {| s_Instance := None; heap := heap_empty |}.

(** ** [Bridge::OnRawSkeletonStreamCallback] *)

(** The two SDK calls of the callback, for skeleton [i]: the return code
    and what the output argument holds after the call. *)
Record StreamSDK : Type :=
  { CoreSdk_GetRawSkeletonInfo : nat -> SDKReturnCode * RawSkeletonInfo;
    CoreSdk_GetRawSkeletonData : nat -> Z -> SDKReturnCode * (nat -> SkeletonNode) }.

(** A value-initialised [ClientRawSkeleton], as [resize] creates it. *)
Definition ClientRawSkeleton_default : ClientRawSkeleton :=
  {| info := {| gloveId := 0; nodesCount := 0; publishTime := 0 |}; nodes := [] |}.

(** The body of the loop at lines 323-336 for index [i]. Both return
    codes are dropped, as in the source. [gloveId] and [nodesCount] are
    [uint32_t] fields. *)
Definition assemble_skeleton (sdk : StreamSDK) (p_publishTime : Z) (i : nat)
    : ClientRawSkeleton :=
  let '(_, raw) := CoreSdk_GetRawSkeletonInfo sdk i in
  let t_info := {| gloveId := U32.wrap (gloveId raw);
                   nodesCount := U32.wrap (nodesCount raw);
                   publishTime := p_publishTime |} in
  let '(_, data) := CoreSdk_GetRawSkeletonData sdk i (nodesCount t_info) in
  {| info := t_info;
     nodes := map data (seq 0 (Z.to_nat (nodesCount t_info))) |}.

(** The loop itself: [remaining] is [skeletonsCount - i]. *)
Fixpoint assemble_loop (sdk : StreamSDK) (p_publishTime : Z)
    (remaining : nat) (i : nat) (v : list ClientRawSkeleton)
    : list ClientRawSkeleton :=
  match remaining with
  | O => v
  | S remaining' =>
      assemble_loop sdk p_publishTime remaining' (S i)
        (<[i := assemble_skeleton sdk p_publishTime i]> v)
  end.

(** Lines 318-336. *)
Definition assemble (sdk : StreamSDK) (p : SkeletonStreamInfo)
    : ClientRawSkeletonCollection :=
  let n := Z.to_nat (U32.wrap (skeletonsCount p)) in
  {| skeletons :=
       assemble_loop sdk (si_publishTime p) n 0 (replicate n ClientRawSkeleton_default) |}.

(** Lines 337-341: the publication under the lock. *)
Definition publish (t_Nxt : ptr) (b : Bridge) (h : Heap) : outcome (Bridge * Heap) :=
  let! h' := match m_NextRawSkeleton b with
             | Some q => heap_delete (Some q) h
             | None => Ok h
             end in
  Ok ({| m_NextRawSkeleton := Some t_Nxt; m_RawSkeleton := m_RawSkeleton b |}, h').

Definition OnRawSkeletonStreamCallback (sdk : StreamSDK) (p : SkeletonStreamInfo)
    (w : Process) : outcome Process :=
  match s_Instance w with
  | None => Ok w
  | Some b =>
      let '(t_Nxt, h1) := heap_new (assemble sdk p) (heap w) in
      let! (b', h2) := publish t_Nxt b h1 in
      Ok {| s_Instance := Some b'; heap := h2 |}
  end.

(** ** Runs of the hand-off slot *)

(** The two operations on the slot: the publication of a freshly
    created snapshot (the tail of the callback) and the claim (the head
    of [Bridge::Poll]). *)
Inductive slot_op : Type :=
| Publish (c : ClientRawSkeletonCollection)
| Claim.

(** What the consumer holds after a claim: nothing, or a snapshot. *)
Definition claimed_t : Type := option (ptr * ClientRawSkeletonCollection).

Definition slot_publish (c : ClientRawSkeletonCollection) (st : Bridge * Heap)
    : outcome (Bridge * Heap) :=
  let '(t_Nxt, h1) := heap_new c (snd st) in
  publish t_Nxt (fst st) h1.

Definition slot_claim (st : Bridge * Heap) : outcome (Bridge * Heap * claimed_t) :=
  let! (b', h') := claim (fst st) (snd st) in
  match m_RawSkeleton b' with
  | None => Ok (b', h', None)
  | Some p =>
      let! c := heap_deref p h' in
      Ok (b', h', Some (p, c))
  end.

(** A run from [st]: the final state and the results of the claims, in
    order. *)
Fixpoint slot_run (ops : list slot_op) (st : Bridge * Heap)
    : outcome (Bridge * Heap * list claimed_t) :=
  match ops with
  | [] => Ok (st, [])
  | Publish c :: ops' =>
      let! st' := slot_publish c st in
      slot_run ops' st'
  | Claim :: ops' =>
      let! (b', h', r) := slot_claim st in
      let! (st'', rs) := slot_run ops' (b', h') in
      Ok (st'', r :: rs)
  end.

Definition slot_start : Bridge * Heap :=
  ({| m_NextRawSkeleton := None; m_RawSkeleton := None |}, heap_empty).

(** ** What the flattening is expected to emit *)

(** The records of the nodes [l], the first of which has index [j] in
    its skeleton, in node order. *)
Fixpoint node_records (t_GloveId : Z) (node_info : nat -> NodeInfo)
    (l : list SkeletonNode) (j : nat) : list ManusNodePose :=
  match l with
  | [] => []
  | node :: l' =>
      make_pose t_GloveId (node_info j) node
        :: node_records t_GloveId node_info l' (S j)
  end.

(** All the records of one skeleton. *)
Definition skeleton_records (node_info : nat -> NodeInfo) (sk : ClientRawSkeleton)
    : list ManusNodePose :=
  node_records (gloveId (info sk)) node_info
    (take (Z.to_nat (nodesCount (info sk))) (nodes sk)) 0.

(** The records of the skeletons [rest], the first of which is number
    [i], in skeleton order, when the node information of skeleton [k] is
    [infos k]. *)
Fixpoint all_records (infos : nat -> nat -> NodeInfo)
    (rest : list ClientRawSkeleton) (i : nat) : list ManusNodePose :=
  match rest with
  | [] => []
  | sk :: rest' => skeleton_records (infos i) sk ++ all_records infos rest' (S i)
  end.

(** The sum of the declared node counts. *)
Definition total_nodes (l : list ClientRawSkeleton) : Z :=
  foldr (fun sk acc => nodesCount (info sk) + acc) 0 l.

(** A skeleton as the callback builds it: the node vector has the
    declared number of entries, a [uint32_t]. *)
Definition skeleton_wf (sk : ClientRawSkeleton) : Prop :=
  U32.in_range (nodesCount (info sk)) /\
  Z.of_nat (length (nodes sk)) = nodesCount (info sk).

Definition snapshot_wf (c : ClientRawSkeletonCollection) : Prop :=
  Z.of_nat (length (skeletons c)) < U32.modulus /\
  Forall skeleton_wf (skeletons c).

(** The skeletons that the loop emits among [rest], each with the node
    information looked up for it: those met before the first one that
    fails the capacity check, less those whose lookup fails. *)
Fixpoint emitted (sdk : NodeInfoLookup) (rest : list ClientRawSkeleton) (i : nat)
    (buffer_size : Z) (buffer_index : Z)
    : list (ClientRawSkeleton * (nat -> NodeInfo)) :=
  match rest with
  | [] => []
  | sk :: rest' =>
      if buffer_size <? U32.add buffer_index (nodesCount (info sk)) then []
      else
        match sdk i (gloveId (info sk)) (nodesCount (info sk)) with
        | None => emitted sdk rest' (S i) buffer_size buffer_index
        | Some node_info =>
            (sk, node_info)
            :: emitted sdk rest' (S i) buffer_size
                 (U32.add buffer_index (nodesCount (info sk)))
        end
  end.

(** Their records, skeleton after skeleton. *)
Definition emitted_records (l : list (ClientRawSkeleton * (nat -> NodeInfo)))
    : list ManusNodePose :=
  l ≫= (fun e => skeleton_records (snd e) (fst e)).

(** ** Repeated polls *)

(** The arguments of a call of [poll] with non-null pointers: the lookup
    that the SDK answers with during the call, the buffer, its declared
    size and the value that [*count] holds. *)
Record poll_call : Type :=
  { pc_sdk : NodeInfoLookup;
    pc_buffer : buffer_t;
    pc_buffer_size : Z;
    pc_count : Z }.

(** Calls of [poll] one after the other, nothing else happening in
    between (no callback fires). *)
Fixpoint poll_repeat (calls : list poll_call) (w : Process)
    : outcome (Process * list poll_result) :=
  match calls with
  | [] => Ok (w, [])
  | call :: calls' =>
      let! r := poll (pc_sdk call) w (Some (pc_buffer call)) (pc_buffer_size call)
                     (Some (pc_count call)) in
      let! (w', rs) := poll_repeat calls' (pr_process r) in
      Ok (w', r :: rs)
  end.

(** After a poll, nothing is pending and the snapshot retained, if any,
    is live. *)
Definition drained (b : Bridge) (h : Heap) : Prop :=
  m_NextRawSkeleton b = None /\
  forall p, m_RawSkeleton b = Some p -> is_Some (live h !! p).

(** ** What the assembly is expected to do *)

Definition is_success (rc : SDKReturnCode) : bool :=
  match rc with SDKReturnCode_Success => true | SDKReturnCode_Failure _ => false end.

(** Both fetches for skeleton [i] succeeded. *)
Definition fetch_ok (sdk : StreamSDK) (i : nat) : bool :=
  let '(rc_info, raw) := CoreSdk_GetRawSkeletonInfo sdk i in
  let '(rc_data, _) := CoreSdk_GetRawSkeletonData sdk i (U32.wrap (nodesCount raw)) in
  is_success rc_info && is_success rc_data.

(** A skeleton whose fetch failed is not assembled into the frame: the
    frame has one skeleton per successful fetch. *)
Definition failed_fetches_left_out (sdk : StreamSDK) (p : SkeletonStreamInfo) : Prop :=
  length (skeletons (assemble sdk p)) =
  length (filter (fun i => fetch_ok sdk i = true)
                 (seq 0 (Z.to_nat (U32.wrap (skeletonsCount p))))).

(** ** What the status of [poll] is expected to be *)

(** Status -2 exactly when the slot is empty and no snapshot is
    retained from an earlier poll, 0 otherwise. *)
Definition no_data_iff_nothing_held (b : Bridge) (r : poll_result) : Prop :=
  (pr_status r = -2 <-> m_NextRawSkeleton b = None /\ m_RawSkeleton b = None) /\
  (pr_status r = 0 <-> ~ (m_NextRawSkeleton b = None /\ m_RawSkeleton b = None)).

(** ** What the slot is expected to deliver *)

Definition is_publish (op : slot_op) : bool :=
  match op with Publish _ => true | Claim => false end.

Definition is_claim (op : slot_op) : bool :=
  match op with Publish _ => false | Claim => true end.

(** The number of publications, and of claims, among [ops]. The
    [k]-th publication since the start creates snapshot [k]. *)
Definition count_publishes (ops : list slot_op) : nat :=
  length (filter (fun op => is_publish op = true) ops).

Definition count_claims (ops : list slot_op) : nat :=
  length (filter (fun op => is_claim op = true) ops).

(** What a claim made after the operations [ops] on an empty slot is to
    return: the snapshot published last if nothing has claimed it,
    that is if no claim came after that publication, and nothing otherwise. *)
Definition latest_unclaimed (ops : list slot_op) : claimed_t :=
  match last ops with
  | Some (Publish c) => Some ((count_publishes ops - 1)%nat, c)
  | _ => None
  end.

(** The snapshots that the claims [rs] delivered. *)
Definition claimed_ids (rs : list claimed_t) : list ptr :=
  rs ≫= (fun r => match r with Some (p, _) => [p] | None => [] end).

(** What is pending in the slot. *)
Definition slot_pending (st : Bridge * Heap) : claimed_t :=
  match m_NextRawSkeleton (fst st) with
  | Some p => (fun c => (p, c)) <$> live (snd st) !! p
  | None => None
  end.

(** The snapshots that the bridge points at. *)
Definition held (b : Bridge) : list ptr :=
  option_list (m_NextRawSkeleton b) ++ option_list (m_RawSkeleton b).

(** The ownership discipline of the two pointers: the snapshots held
    and the snapshots destroyed are pairwise distinct (so nothing is
    destroyed twice, nothing destroyed is still pointed at, and the two
    pointers differ), the snapshots held are exactly the live ones, and
    every snapshot created so far is either held or destroyed. *)
Record slot_inv (st : Bridge * Heap) : Prop :=
  { inv_distinct : NoDup (held (fst st) ++ destroyed (snd st));
    inv_live : forall p, is_Some (live (snd st) !! p) <-> p ∈ held (fst st);
    inv_accounted : forall p, (p < created (snd st))%nat <->
                              p ∈ held (fst st) ++ destroyed (snd st) }.

(** ** Effects of the lifecycle functions

    [Initialize], [InitializeSDK], [RegisterAllCallbacks], [Connect] and
    [ShutDown] are sequences of calls into the SDK, the platform layer,
    the log, the clock and [std::cin]. A run of one of them is its
    result together with the calls it made, in order; what the outside
    world answers is an argument. *)

(** An argument of a log line: what replaces a [{}]. *)
Inductive log_arg : Type :=
| ArgZ (z : Z)
| ArgS (s : string).

Inductive ConnectionType : Type :=
| ConnectionType_Invalid
| ConnectionType_Integrated
| ConnectionType_Local
| ConnectionType_Remote
| ClientState_MAX_CLIENT_STATE_SIZE.

Inductive ClientReturnCode : Type :=
| ClientReturnCode_Success
| ClientReturnCode_FailedPlatformSpecificInitialization
| ClientReturnCode_FailedToResizeWindow
| ClientReturnCode_FailedToInitialize
| ClientReturnCode_FailedToFindHosts
| ClientReturnCode_FailedToConnect
| ClientReturnCode_UnrecognizedStateEncountered
| ClientReturnCode_FailedToShutDownSDK
| ClientReturnCode_FailedPlatformSpecificShutdown
| ClientReturnCode_FailedToRestart
| ClientReturnCode_FailedWrongTimeToGetData
| ClientReturnCode_MAX_CLIENT_RETURN_CODE_SIZE.

Definition ClientReturnCode_is_success (c : ClientReturnCode) : bool :=
  match c with ClientReturnCode_Success => true | _ => false end.

Definition ConnectionType_eqb (a b : ConnectionType) : bool :=
  match a, b with
  | ConnectionType_Invalid, ConnectionType_Invalid
  | ConnectionType_Integrated, ConnectionType_Integrated
  | ConnectionType_Local, ConnectionType_Local
  | ConnectionType_Remote, ConnectionType_Remote
  | ClientState_MAX_CLIENT_STATE_SIZE, ClientState_MAX_CLIENT_STATE_SIZE => true
  | _, _ => false
  end.

(** Modelled from the spec: [Side], [AxisPolarity], [AxisView] and
    [HandMotion] of [ManusSDKTypes.h], of which the bridge names one
    value each. *)
Inductive Side : Type := Side_Right | Side_other (v : Z).
Inductive AxisPolarity : Type := AxisPolarity_PositiveZ | AxisPolarity_other (v : Z).
Inductive AxisView : Type := AxisView_XFromViewer | AxisView_other (v : Z).
Inductive HandMotion : Type := HandMotion_Tracker | HandMotion_other (v : Z).

(** Modelled from the spec: [CoordinateSystemVUH], the four fields that
    [InitializeSDK] sets. *)
Record CoordinateSystemVUH : Type :=
  { view : AxisView; up : AxisPolarity; handedness : Side; unitScale : float32 }.

(** Modelled from the spec: [ManusHost], the fields that [Connect] prints. *)
Record ManusHost : Type :=
  { hostName : string;
    ipAddress : string;
    version_major : Z;
    version_minor : Z;
    version_patch : Z }.

(** The numeric value of an [SDKReturnCode], as the casts to [int32_t]
    in the log calls produce it. *)
Definition SDKReturnCode_value (rc : SDKReturnCode) : Z :=
  match rc with
  | SDKReturnCode_Success => 0
  | SDKReturnCode_Failure code => code
  end.

(** [rc == SDKReturnCode_NotConnected], the enumerator having the value
    [not_connected]. *)
Definition is_not_connected (not_connected : Z) (rc : SDKReturnCode) : bool :=
  match rc with
  | SDKReturnCode_Success => false
  | SDKReturnCode_Failure code => code =? not_connected
  end.

(** The calls that the lifecycle functions make. *)
Inductive event : Type :=
| Ev_PlatformSpecificInitialization
| Ev_PlatformSpecificShutdown
| Ev_CoreSdk_InitializeCore
| Ev_CoreSdk_RegisterCallbackForRawSkeletonStream
| Ev_CoordinateSystemVUH_Init
| Ev_CoreSdk_InitializeCoordinateSystemWithVUH (vuh : CoordinateSystemVUH)
                                               (useWorldCoordinates : bool)
| Ev_CoreSdk_SetRawSkeletonHandMotion (m : HandMotion)
| Ev_CoreSdk_LookForHosts (seconds : Z) (locally : bool)
| Ev_CoreSdk_GetNumberOfAvailableHostsFound
| Ev_CoreSdk_GetAvailableHostsFound (count : Z)
| Ev_CoreSdk_ConnectToHost (host : ManusHost)
| Ev_CoreSdk_ShutDown
| Ev_cin
| Ev_sleep_for (milliseconds : Z)
| Ev_print (format : string) (args : list log_arg)
| Ev_error (format : string) (args : list log_arg).

(** A run: undefined, or a result and the calls made. *)
Definition eff (A : Type) : Type := outcome (A * list event).

Definition eret {A : Type} (a : A) : eff A := Ok (a, []).

Definition ebind {A B : Type} (m : eff A) (k : A -> eff B) : eff B :=
  match m with
  | UB => UB
  | Ok (a, t1) =>
      match k a with
      | UB => UB
      | Ok (b, t2) => Ok (b, t1 ++ t2)
      end
  end.

(** The call [e], answered with [answer]. *)
Definition ask {A : Type} (e : event) (answer : A) : eff A := Ok (answer, [e]).

Notation "'do!' p ':=' m 'in' k" := (ebind m (fun p => k))
  (at level 10, p pattern, m at level 100, k at level 200, only parsing).

(** What the world answers during [Initialize], outside [Connect]. *)
Record InitEnv : Type :=
  { env_PlatformSpecificInitialization : bool;
    env_CoreSdk_InitializeCore : SDKReturnCode;
    env_CoreSdk_RegisterCallbackForRawSkeletonStream : SDKReturnCode;
    env_CoreSdk_InitializeCoordinateSystemWithVUH : SDKReturnCode;
    env_CoreSdk_SetRawSkeletonHandMotion : SDKReturnCode }.

(** What the world answers during one call of [Connect]: the return
    codes, the number of hosts and the host array that the SDK writes,
    and the number that [std::cin >>] leaves in its [uint32_t] operand. *)
Record ConnectEnv : Type :=
  { env_CoreSdk_LookForHosts : SDKReturnCode;
    env_CoreSdk_GetNumberOfAvailableHostsFound : SDKReturnCode * Z;
    env_CoreSdk_GetAvailableHostsFound : SDKReturnCode * (nat -> ManusHost);
    env_cin : Z;
    env_CoreSdk_ConnectToHost : ManusHost -> SDKReturnCode }.

Record ShutdownEnv : Type :=
  { env_CoreSdk_ShutDown : SDKReturnCode;
    env_PlatformSpecificShutdown : bool }.

(** ** [Bridge::RegisterAllCallbacks] *)

Definition RegisterAllCallbacks (env : InitEnv) : eff ClientReturnCode :=
  do! t_Result := ask Ev_CoreSdk_RegisterCallbackForRawSkeletonStream
                      (env_CoreSdk_RegisterCallbackForRawSkeletonStream env) in
  if is_success t_Result then eret ClientReturnCode_Success
  else
    do! _ := ask (Ev_error
                    "Failed to register callback function for processing raw skeletal data from Manus Core. The value returned was {}."%string
                    [ArgZ (SDKReturnCode_value t_Result)]) tt in
    eret ClientReturnCode_FailedToInitialize.

(** ** [Bridge::InitializeSDK] *)

(** The coordinate system that [InitializeSDK] asks for; [1.0f] is the
    bit pattern [0x3F800000]. *)
Definition t_VUH : CoordinateSystemVUH :=
  {| view := AxisView_XFromViewer;
     up := AxisPolarity_PositiveZ;
     handedness := Side_Right;
     unitScale := 1065353216 |}.

(** The result is the return code and [m_ConnectionType] on return. *)
Definition InitializeSDK (env : InitEnv) : eff (ClientReturnCode * ConnectionType) :=
  let m_ConnectionType := ConnectionType_Remote in
  do! t_InitializeResult := ask Ev_CoreSdk_InitializeCore (env_CoreSdk_InitializeCore env) in
  if negb (is_success t_InitializeResult) then
    eret (ClientReturnCode_FailedToInitialize, m_ConnectionType)
  else
    do! t_CallBackResults := RegisterAllCallbacks env in
    if negb (ClientReturnCode_is_success t_CallBackResults) then
      eret (t_CallBackResults, m_ConnectionType)
    else
      do! _ := ask Ev_CoordinateSystemVUH_Init tt in
      do! t_CoordinateResult :=
        ask (Ev_CoreSdk_InitializeCoordinateSystemWithVUH t_VUH true)
            (env_CoreSdk_InitializeCoordinateSystemWithVUH env) in
      if negb (is_success t_CoordinateResult) then
        eret (ClientReturnCode_FailedToInitialize, m_ConnectionType)
      else eret (ClientReturnCode_Success, m_ConnectionType).

(** ** [Bridge::ShutDown] and [shutdown] *)

Definition ShutDown (env : ShutdownEnv) : eff ClientReturnCode :=
  do! t_Result := ask Ev_CoreSdk_ShutDown (env_CoreSdk_ShutDown env) in
  if negb (is_success t_Result) then eret ClientReturnCode_FailedToShutDownSDK
  else
    do! ok := ask Ev_PlatformSpecificShutdown (env_PlatformSpecificShutdown env) in
    if negb ok then eret ClientReturnCode_FailedPlatformSpecificShutdown
    else eret ClientReturnCode_Success.

(** [int shutdown()] *)
Definition shutdown (env : ShutdownEnv) (w : Process) : eff Z :=
  match s_Instance w with
  | None => eret (-1)
  | Some _ =>
      do! result := ShutDown env in
      eret (if ClientReturnCode_is_success result then 0 else -1)
  end.

(** ** [Bridge::Connect] *)

(** The loop at lines 282-289 that prints the hosts: [remaining] is
    [t_NumberOfHostsFound - i]. *)
Fixpoint print_hosts (t_AvailableHosts : list ManusHost) (remaining : nat) (i : nat)
    : eff unit :=
  match remaining with
  | O => eret tt
  | S remaining' =>
      match t_AvailableHosts !! i with
      | None => UB
      | Some t_HostInfo =>
          do! _ := ask (Ev_print "[{}] hostname: {} IP address: {}, version {}.{}.{}"%string
                          [ArgZ (Z.of_nat i + 1); ArgS (hostName t_HostInfo);
                           ArgS (ipAddress t_HostInfo);
                           ArgZ (version_major t_HostInfo);
                           ArgZ (version_minor t_HostInfo);
                           ArgZ (version_patch t_HostInfo)]) tt in
          print_hosts t_AvailableHosts remaining' (S i)
      end
  end.

(** Lines 299-306: the connection to the host chosen. *)
Definition connect_to (not_connected : Z) (env : ConnectEnv)
    (t_AvailableHosts : list ManusHost) (t_HostSelection : Z) : eff ClientReturnCode :=
  match t_AvailableHosts !! Z.to_nat t_HostSelection with
  | None => UB
  | Some host =>
      do! t_ConnectResult := ask (Ev_CoreSdk_ConnectToHost host)
                                 (env_CoreSdk_ConnectToHost env host) in
      if is_not_connected not_connected t_ConnectResult
      then eret ClientReturnCode_FailedToConnect
      else eret ClientReturnCode_Success
  end.

(** [not_connected] is the value of [SDKReturnCode_NotConnected]. *)
Definition Connect (not_connected : Z) (m_ConnectionType : ConnectionType)
    (env : ConnectEnv) : eff ClientReturnCode :=
  let t_ConnectLocally := ConnectionType_eqb m_ConnectionType ConnectionType_Local in
  do! t_StartResult := ask (Ev_CoreSdk_LookForHosts 1 t_ConnectLocally)
                           (env_CoreSdk_LookForHosts env) in
  if negb (is_success t_StartResult) then eret ClientReturnCode_FailedToFindHosts
  else
    do! (t_NumberResult, found) :=
      ask Ev_CoreSdk_GetNumberOfAvailableHostsFound
          (env_CoreSdk_GetNumberOfAvailableHostsFound env) in
    let t_NumberOfHostsFound := U32.wrap found in
    if negb (is_success t_NumberResult) then eret ClientReturnCode_FailedToFindHosts
    else if t_NumberOfHostsFound =? 0 then eret ClientReturnCode_FailedToFindHosts
    else
      do! (t_HostsResult, written) :=
        ask (Ev_CoreSdk_GetAvailableHostsFound t_NumberOfHostsFound)
            (env_CoreSdk_GetAvailableHostsFound env) in
      let t_AvailableHosts := map written (seq 0 (Z.to_nat t_NumberOfHostsFound)) in
      if negb (is_success t_HostsResult) then eret ClientReturnCode_FailedToFindHosts
      else if negb t_ConnectLocally && (1 <? t_NumberOfHostsFound) then
        do! _ := ask (Ev_print
                        "Select which host you want to connect to (and press enter to submit)"%string
                        []) tt in
        do! _ := print_hosts t_AvailableHosts (Z.to_nat t_NumberOfHostsFound) 0 in
        do! input := ask Ev_cin (env_cin env) in
        let t_HostSelectionInput := U32.wrap input in
        if (t_HostSelectionInput <=? 0) || (t_NumberOfHostsFound <? t_HostSelectionInput)
        then eret ClientReturnCode_FailedToConnect
        else connect_to not_connected env t_AvailableHosts
                        (U32.wrap (t_HostSelectionInput - 1))
      else connect_to not_connected env t_AvailableHosts 0.

(** *** What [Connect] is expected to do *)

(** The lines that list the hosts [i], [i+1], ... of [hosts]. *)
Fixpoint host_lines (hosts : list ManusHost) (i : nat) : list event :=
  match hosts with
  | [] => []
  | h :: hosts' =>
      Ev_print "[{}] hostname: {} IP address: {}, version {}.{}.{}"%string
        [ArgZ (Z.of_nat i + 1); ArgS (hostName h); ArgS (ipAddress h);
         ArgZ (version_major h); ArgZ (version_minor h); ArgZ (version_patch h)]
      :: host_lines hosts' (S i)
  end.

(** The hosts that the SDK has written into [t_AvailableHosts]. *)
Definition found_hosts (env : ConnectEnv) : list ManusHost :=
  map (snd (env_CoreSdk_GetAvailableHostsFound env))
      (seq 0 (Z.to_nat (U32.wrap (snd (env_CoreSdk_GetNumberOfAvailableHostsFound env))))).

(** The three calls of the host discovery. *)
Definition discovery_calls (m_ConnectionType : ConnectionType) (env : ConnectEnv)
    : list event :=
  [Ev_CoreSdk_LookForHosts 1 (ConnectionType_eqb m_ConnectionType ConnectionType_Local);
   Ev_CoreSdk_GetNumberOfAvailableHostsFound;
   Ev_CoreSdk_GetAvailableHostsFound
     (U32.wrap (snd (env_CoreSdk_GetNumberOfAvailableHostsFound env)))].

(** The prompt, the list of hosts and the read from [std::cin]. *)
Definition selection_calls (env : ConnectEnv) : list event :=
  Ev_print "Select which host you want to connect to (and press enter to submit)"%string []
  :: host_lines (found_hosts env) 0 ++ [Ev_cin].

(** The host discovery succeeded: the three calls returned success and
    at least one host was found. *)
Definition discovery_ok (env : ConnectEnv) : bool :=
  is_success (env_CoreSdk_LookForHosts env)
  && is_success (fst (env_CoreSdk_GetNumberOfAvailableHostsFound env))
  && negb (U32.wrap (snd (env_CoreSdk_GetNumberOfAvailableHostsFound env)) =? 0)
  && is_success (fst (env_CoreSdk_GetAvailableHostsFound env)).

(** The user is asked to choose: the connection is not local and more
    than one host was found. *)
Definition asks_user (m_ConnectionType : ConnectionType) (env : ConnectEnv) : bool :=
  negb (ConnectionType_eqb m_ConnectionType ConnectionType_Local)
  && (1 <? U32.wrap (snd (env_CoreSdk_GetNumberOfAvailableHostsFound env))).

(** The index of the host to connect to: the first one, or, when the
    user is asked, the number typed minus one if that number is between 1
    and the number of hosts found, and none otherwise. *)
Definition chosen_host (m_ConnectionType : ConnectionType) (env : ConnectEnv)
    : option nat :=
  if asks_user m_ConnectionType env then
    let input := U32.wrap (env_cin env) in
    if (1 <=? input)
       && (input <=? U32.wrap (snd (env_CoreSdk_GetNumberOfAvailableHostsFound env)))
    then Some (Z.to_nat (input - 1))
    else None
  else Some 0%nat.

(** The return code of a call of [Connect], if the call is defined. *)
Definition Connect_result (not_connected : Z) (m_ConnectionType : ConnectionType)
    (env : ConnectEnv) : option ClientReturnCode :=
  match Connect not_connected m_ConnectionType env with
  | Ok (r, _) => Some r
  | UB => None
  end.

(** ** [Bridge::Initialize] *)

(** The loop at lines 77-82. [envs k] is what the world answers during
    the [k]-th call of [Connect]. The loop has no bound: [fuel] is the
    number of calls of [Connect] looked at, and the result is [None] when
    the loop is still running after them. *)
Fixpoint connect_loop (fuel : nat) (attempt : nat) (not_connected : Z)
    (m_ConnectionType : ConnectionType) (envs : nat -> ConnectEnv) : eff (option unit) :=
  match fuel with
  | O => eret None
  | S fuel' =>
      do! r := Connect not_connected m_ConnectionType (envs attempt) in
      if ClientReturnCode_is_success r then eret (Some tt)
      else
        do! _ := ask (Ev_print
                        "MANUS Core client could not connect.trying again in a second."%string
                        []) tt in
        do! _ := ask (Ev_sleep_for 1000) tt in
        connect_loop fuel' (S attempt) not_connected m_ConnectionType envs
  end.

(** The result is [None] when [Initialize] has not returned within
    [fuel] calls of [Connect]. *)
Definition Initialize (fuel : nat) (not_connected : Z) (env : InitEnv)
    (envs : nat -> ConnectEnv) : eff (option ClientReturnCode) :=
  do! platform_ok := ask Ev_PlatformSpecificInitialization
                         (env_PlatformSpecificInitialization env) in
  if negb platform_ok then
    eret (Some ClientReturnCode_FailedPlatformSpecificInitialization)
  else
    do! (t_IntializeResult, m_ConnectionType) := InitializeSDK env in
    if negb (ClientReturnCode_is_success t_IntializeResult) then
      eret (Some ClientReturnCode_FailedToInitialize)
    else
      do! _ := ask (if ConnectionType_eqb m_ConnectionType ConnectionType_Integrated
                    then Ev_print "MANUS Core client is running in integrated mode."%string []
                    else Ev_print
                           "MANUS Core client is connecting to MANUS Core. (make sure it is running)"%string
                           []) tt in
      do! connected := connect_loop fuel 0 not_connected m_ConnectionType envs in
      match connected with
      | None => eret None
      | Some _ =>
          do! _ := (if negb (ConnectionType_eqb m_ConnectionType ConnectionType_Integrated)
                    then ask (Ev_print
                                "MANUS Core client is connected, setting up skeletons."%string
                                []) tt
                    else eret tt) in
          do! t_HandMotionResult :=
            ask (Ev_CoreSdk_SetRawSkeletonHandMotion HandMotion_Tracker)
                (env_CoreSdk_SetRawSkeletonHandMotion env) in
          do! _ := (if negb (is_success t_HandMotionResult)
                    then ask (Ev_error
                                "Failed to set hand motion mode. The value returned was {}."%string
                                [ArgZ (SDKReturnCode_value t_HandMotionResult)]) tt
                    else eret tt) in
          eret (Some ClientReturnCode_Success)
      end.

(** The pauses and the host searches among the calls made. Every call
    of [Connect] starts with one host search. *)
Definition is_sleep (e : event) : bool :=
  match e with Ev_sleep_for _ => true | _ => false end.

Definition is_host_search (e : event) : bool :=
  match e with Ev_CoreSdk_LookForHosts _ _ => true | _ => false end.

Definition is_connect_to (e : event) : bool :=
  match e with Ev_CoreSdk_ConnectToHost _ => true | _ => false end.

Definition count_events (f : event -> bool) (calls : list event) : nat :=
  length (filter (fun e => f e = true) calls).

(** The SDK initialisation succeeds. *)
Definition init_ok (env : InitEnv) : bool :=
  env_PlatformSpecificInitialization env
  && is_success (env_CoreSdk_InitializeCore env)
  && is_success (env_CoreSdk_RegisterCallbackForRawSkeletonStream env)
  && is_success (env_CoreSdk_InitializeCoordinateSystemWithVUH env).

(** ** [bridge_create], with [Initialize] run

    No callback fires while [Initialize] runs. The result is the
    process and whether the pointer returned is non-null. *)
Definition bridge_create_run (fuel : nat) (not_connected : Z) (env : InitEnv)
    (envs : nat -> ConnectEnv) (w : Process) : eff (option (Process * bool)) :=
  let w1 := Bridge_ctor w in
  do! result := Initialize fuel not_connected env envs in
  match result with
  | None => eret None
  | Some code =>
      if negb (ClientReturnCode_is_success code)
      then eret (Some (Bridge_dtor w1, false))
      else eret (Some (w1, true))
  end.

(** ** Sample data

    A snapshot of two skeletons of 3 and 5 nodes, lookups that succeed
    or fail per glove, and blank buffers. *)

Module Sample.

Definition node (k : Z) : SkeletonNode :=
  {| id := k;
     transform := {| position := {| vx := k; vy := 2 * k; vz := 3 * k |};
                     rotation := {| qw := 1; qx := 0; qy := 0; qz := k |};
                     scale := {| vx := 1; vy := 1; vz := 1 |} |} |}.

Definition skeleton (glove : Z) (n : nat) : ClientRawSkeleton :=
  {| info := {| gloveId := glove; nodesCount := Z.of_nat n; publishTime := 0 |};
     nodes := map (fun k => node (glove * 100 + Z.of_nat k)) (seq 0 n) |}.

Definition sk3 : ClientRawSkeleton := skeleton 7 3.
Definition sk5 : ClientRawSkeleton := skeleton 9 5.

Definition snapshot35 : ClientRawSkeletonCollection := {| skeletons := [sk3; sk5] |}.
Definition snapshot53 : ClientRawSkeletonCollection := {| skeletons := [sk5; sk3] |}.
Definition snapshot_none : ClientRawSkeletonCollection := {| skeletons := [] |}.

Definition node_info (j : nat) : NodeInfo := {| nodeId := Z.of_nat j; side := 1 |}.

(** Every lookup succeeds. *)
Definition sdk_ok : NodeInfoLookup := fun _ _ _ => Some node_info.

(** The lookups for glove [g] fail, the others succeed. *)
Definition sdk_without (g : Z) : NodeInfoLookup :=
  fun _ glove _ => if glove =? g then None else Some node_info.

Definition pose0 : ManusNodePose :=
  {| glove_id := 0; node_id := 0; pose_side := 0;
     pose_position := {| vx := 0; vy := 0; vz := 0 |};
     orientation := {| qw := 0; qx := 0; qy := 0; qz := 0 |} |}.

Definition blank (n : nat) : buffer_t := replicate n pose0.

(** The bridge and the heap once the callback has published [c] and
    nothing has been claimed yet. *)
Definition pending (c : ClientRawSkeletonCollection) : Bridge * Heap :=
  ({| m_NextRawSkeleton := Some 0%nat; m_RawSkeleton := None |},
   {| live := {[ 0%nat := c ]}; created := 1%nat; destroyed := [] |}).

(** The process once the callback has published [c] into a new bridge. *)
Definition process_pending (c : ClientRawSkeletonCollection) : Process :=
  {| s_Instance := Some (fst (pending c)); heap := snd (pending c) |}.

(** The process once a poll has claimed [c] and nothing was published since. *)
Definition process_retained (c : ClientRawSkeletonCollection) : Process :=
  {| s_Instance := Some {| m_NextRawSkeleton := None; m_RawSkeleton := Some 0%nat |};
     heap := snd (pending c) |}.

(** An SDK whose two fetches fail for every skeleton, having written a
    glove, a count of two nodes and the two nodes. *)
Definition stream_failing : StreamSDK :=
  {| CoreSdk_GetRawSkeletonInfo := fun _ =>
       (SDKReturnCode_Failure 1, {| gloveId := 7; nodesCount := 2; publishTime := 0 |});
     CoreSdk_GetRawSkeletonData := fun _ _ =>
       (SDKReturnCode_Failure 1, fun j => node (Z.of_nat j)) |}.

(** The same outputs, with success reported. *)
Definition stream_ok : StreamSDK :=
  {| CoreSdk_GetRawSkeletonInfo := fun _ =>
       (SDKReturnCode_Success, {| gloveId := 7; nodesCount := 2; publishTime := 0 |});
     CoreSdk_GetRawSkeletonData := fun _ _ =>
       (SDKReturnCode_Success, fun j => node (Z.of_nat j)) |}.

Definition one_skeleton : SkeletonStreamInfo :=
  {| si_publishTime := 42; skeletonsCount := 1 |}.

(** The platform and the SDK initialise; setting the hand motion fails. *)
Definition init_env : InitEnv :=
  {| env_PlatformSpecificInitialization := true;
     env_CoreSdk_InitializeCore := SDKReturnCode_Success;
     env_CoreSdk_RegisterCallbackForRawSkeletonStream := SDKReturnCode_Success;
     env_CoreSdk_InitializeCoordinateSystemWithVUH := SDKReturnCode_Success;
     env_CoreSdk_SetRawSkeletonHandMotion := SDKReturnCode_Failure 1 |}.

Definition host (k : nat) : ManusHost :=
  {| hostName := "core"%string; ipAddress := "10.0.0.1"%string;
     version_major := 2; version_minor := Z.of_nat k; version_patch := 0 |}.

(** No host answers. *)
Definition connect_env_down : ConnectEnv :=
  {| env_CoreSdk_LookForHosts := SDKReturnCode_Success;
     env_CoreSdk_GetNumberOfAvailableHostsFound := (SDKReturnCode_Success, 0);
     env_CoreSdk_GetAvailableHostsFound := (SDKReturnCode_Success, host);
     env_cin := 0;
     env_CoreSdk_ConnectToHost := fun _ => SDKReturnCode_Success |}.

(** Two hosts answer, the user types [typed], and connecting to a host
    returns [rc]. *)
Definition connect_env_up (typed : Z) (rc : SDKReturnCode) : ConnectEnv :=
  {| env_CoreSdk_LookForHosts := SDKReturnCode_Success;
     env_CoreSdk_GetNumberOfAvailableHostsFound := (SDKReturnCode_Success, 2);
     env_CoreSdk_GetAvailableHostsFound := (SDKReturnCode_Success, host);
     env_cin := typed;
     env_CoreSdk_ConnectToHost := fun _ => rc |}.

(** The first two calls of [Connect] find no host, the later ones do. *)
Definition connect_envs (k : nat) : ConnectEnv :=
  if (k <? 2)%nat then connect_env_down else connect_env_up 2 SDKReturnCode_Success.

(** The value taken for [SDKReturnCode_NotConnected]. *)
Definition not_connected : Z := 11.

End Sample.

(** * Proofs *)

(** ** Arithmetic on [uint32_t] *)

Lemma modulus_eq : U32.modulus = 4294967296.
Proof. reflexivity. Qed.

Lemma wrap_in_range z : U32.in_range (U32.wrap z).
Proof. unfold U32.in_range, U32.wrap. rewrite modulus_eq. apply Z.mod_pos_bound. lia. Qed.

Lemma wrap_small z : U32.in_range z -> U32.wrap z = z.
Proof. unfold U32.in_range, U32.wrap. intros H. apply Z.mod_small. exact H. Qed.

Lemma add_small a b : U32.in_range (a + b) -> U32.add a b = a + b.
Proof. apply wrap_small. Qed.

Lemma add_in_range a b : U32.in_range (U32.add a b).
Proof. apply wrap_in_range. Qed.

Lemma add_wrap_l a b : U32.add (U32.wrap a) b = U32.wrap (a + b).
Proof. unfold U32.add, U32.wrap. apply Zplus_mod_idemp_l. Qed.

#[global] Opaque U32.modulus.

Ltac in_range_tac := unfold U32.in_range; rewrite modulus_eq; lia.

(** Well-formedness of a concrete skeleton or snapshot. *)
Ltac wf_tac :=
  unfold snapshot_wf, skeleton_wf, U32.in_range;
  repeat first [ apply conj | apply Forall_cons | apply Forall_nil ];
  simpl; rewrite ?modulus_eq; first [ lia | reflexivity ].

(** ** The inner loop *)

Lemma node_records_length g ni l j : length (node_records g ni l j) = length l.
Proof. revert j. induction l as [|x l IH]; intros j; simpl; [reflexivity | now rewrite IH]. Qed.

Lemma node_records_app g ni l1 l2 j :
  node_records g ni (l1 ++ l2) j =
  node_records g ni l1 j ++ node_records g ni l2 (j + length l1)%nat.
Proof.
  revert j. induction l1 as [|x l1 IH]; intros j; simpl.
  - now rewrite Nat.add_0_r.
  - rewrite IH. now replace (S j + length l1)%nat with (j + S (length l1))%nat by lia.
Qed.

(** The counter after the loop, whatever the loop did to the buffer. *)
Lemma node_loop_index g ni sk_nodes r : forall j buf bi buf' bi',
  U32.in_range bi ->
  node_loop g ni sk_nodes r j buf bi = Ok (buf', bi') ->
  bi' = U32.wrap (bi + Z.of_nat r).
Proof.
  induction r as [|r IH]; intros j buf bi buf' bi' Hbi H; simpl in H.
  - injection H as _ <-. rewrite Z.add_0_r. symmetry. now apply wrap_small.
  - destruct (sk_nodes !! j) as [node|]; [|discriminate].
    destruct (buf !! Z.to_nat bi) as [old|]; [|discriminate].
    apply IH in H; [|apply add_in_range].
    rewrite H. unfold U32.add. fold (U32.add (U32.wrap (bi + 1)) (Z.of_nat r)).
    rewrite add_wrap_l. f_equal. lia.
Qed.

(** A loop that completes stayed inside the node vector and inside the
    buffer, provided the buffer is shorter than [2^32] entries: the
    counter cannot wrap before it leaves the buffer. *)
Lemma node_loop_in_bounds g ni sk_nodes r : forall j buf bi buf' bi',
  0 <= bi <= Z.of_nat (length buf) ->
  Z.of_nat (length buf) < U32.modulus ->
  node_loop g ni sk_nodes r j buf bi = Ok (buf', bi') ->
  (r <= length (drop j sk_nodes))%nat /\ bi + Z.of_nat r <= Z.of_nat (length buf).
Proof.
  induction r as [|r IH]; intros j buf bi buf' bi' Hbi HL H; simpl in H.
  - split; lia.
  - destruct (sk_nodes !! j) as [node|] eqn:Hj; [|discriminate].
    destruct (buf !! Z.to_nat bi) as [old|] eqn:Hb; [|discriminate].
    apply lookup_lt_Some in Hb.
    rewrite add_small in H by (unfold U32.in_range; lia).
    apply IH in H; rewrite ?length_insert; try lia.
    rewrite length_insert in H.
    rewrite (drop_S _ _ _ Hj). simpl. lia.
Qed.

(** Inside those bounds the loop completes and stores the records of the
    nodes [j .. j+r-1] at [buffer_index ..], one after the other. *)
Lemma node_loop_complete g ni sk_nodes r : forall j buf bi,
  (r <= length (drop j sk_nodes))%nat ->
  0 <= bi ->
  bi + Z.of_nat r <= Z.of_nat (length buf) ->
  bi + Z.of_nat r < U32.modulus ->
  node_loop g ni sk_nodes r j buf bi =
  Ok (take (Z.to_nat bi) buf
        ++ node_records g ni (take r (drop j sk_nodes)) j
        ++ drop (Z.to_nat bi + r) buf,
      bi + Z.of_nat r).
Proof.
  induction r as [|r IH]; intros j buf bi Hr Hbi HL Hm; simpl node_loop.
  - simpl. rewrite Nat.add_0_r, take_drop, Z.add_0_r. reflexivity.
  - destruct (sk_nodes !! j) as [node|] eqn:Hj.
    2:{ apply lookup_ge_None in Hj. rewrite length_drop in Hr. lia. }
    destruct (buf !! Z.to_nat bi) as [old|] eqn:Hb.
    2:{ apply lookup_ge_None in Hb. lia. }
    apply lookup_lt_Some in Hb.
    rewrite (drop_S _ _ _ Hj) in Hr |- *. simpl in Hr.
    rewrite add_small by (unfold U32.in_range; lia).
    rewrite IH; rewrite ?length_insert; try lia.
    f_equal. f_equal; [|lia].
    replace (Z.to_nat (bi + 1)) with (S (Z.to_nat bi)) by lia.
    rewrite (take_S_r _ _ (make_pose g (ni j) node))
      by (now apply list_lookup_insert_eq).
    rewrite take_insert_ge by lia.
    rewrite drop_insert_lt by lia.
    simpl. rewrite <- app_assoc. simpl.
    now replace (Z.to_nat bi + S r)%nat with (S (Z.to_nat bi + r)) by lia.
Qed.

(** ** The outer loop *)

(** The counter never passes [buffer_size]: it only moves to a value
    that the check at line 217 has just compared with [buffer_size]. *)
Lemma skeleton_loop_index sdk C rest : forall i buf bi buf' bi',
  U32.in_range bi -> bi <= C ->
  skeleton_loop sdk rest i C buf bi = Ok (buf', bi') ->
  U32.in_range bi' /\ bi' <= C.
Proof.
  induction rest as [|sk rest IH]; intros i buf bi buf' bi' Hr HC H; simpl in H.
  - injection H as _ <-. now split.
  - destruct (C <? U32.add bi (nodesCount (info sk))) eqn:Hchk.
    + injection H as _ <-. now split.
    + apply Z.ltb_ge in Hchk.
      destruct (sdk i (gloveId (info sk)) (nodesCount (info sk))) as [ni|].
      2:{ eapply IH; eauto. }
      destruct (node_loop _ _ _ _ _ _ _) as [[buf1 bi1]|] eqn:Hn; [|discriminate].
      simpl in H. apply node_loop_index in Hn; [|exact Hr].
      eapply IH; [| |exact H]; subst bi1.
      * apply wrap_in_range.
      * destruct (Z.le_gt_cases 0 (nodesCount (info sk))).
        -- now rewrite Z2Nat.id by assumption.
        -- replace (Z.to_nat (nodesCount (info sk))) with 0%nat by lia.
           simpl. rewrite Z.add_0_r, wrap_small by exact Hr. exact HC.
Qed.

(** A loop that completes on a buffer of fewer than [2^32] entries has
    left alone every entry below the counter it started from and every
    entry from the counter it ended with. *)
Lemma skeleton_loop_frame sdk C rest : forall i buf bi buf' bi',
  0 <= bi <= Z.of_nat (length buf) ->
  Z.of_nat (length buf) < U32.modulus ->
  skeleton_loop sdk rest i C buf bi = Ok (buf', bi') ->
  bi <= bi' <= Z.of_nat (length buf) /\
  length buf' = length buf /\
  take (Z.to_nat bi) buf' = take (Z.to_nat bi) buf /\
  drop (Z.to_nat bi') buf' = drop (Z.to_nat bi') buf.
Proof.
  induction rest as [|sk rest IH]; intros i buf bi buf' bi' Hbi HL H; simpl in H.
  - injection H as <- <-. repeat split; lia.
  - destruct (C <? U32.add bi (nodesCount (info sk))).
    { injection H as <- <-. repeat split; lia. }
    destruct (sdk i (gloveId (info sk)) (nodesCount (info sk))) as [ni|].
    2:{ eapply IH; eauto. }
    destruct (node_loop _ _ _ _ _ _ _) as [[buf1 bi1]|] eqn:Hn; [|discriminate].
    simpl in H.
    destruct (node_loop_in_bounds _ _ _ _ _ _ _ _ _ Hbi HL Hn) as [Hnodes Hfit].
    rewrite node_loop_complete in Hn by lia.
    injection Hn as <- <-.
    set (r := Z.to_nat (nodesCount (info sk))) in *.
    set (recs := node_records _ _ _ _) in *.
    assert (Hrecs : length recs = r).
    { unfold recs. rewrite node_records_length, length_take. lia. }
    assert (Hlen : length (take (Z.to_nat bi) buf ++ recs ++ drop (Z.to_nat bi + r) buf)
                   = length buf).
    { rewrite !length_app, length_take, length_drop. lia. }
    apply IH in H; rewrite ?Hlen; try lia.
    destruct H as (Hle & Hl & Ht & Hd). rewrite Hlen in Hl.
    repeat split; try lia.
    + apply (f_equal (take (Z.to_nat bi))) in Ht.
      rewrite !take_take in Ht.
      replace (Z.to_nat bi `min` Z.to_nat (bi + Z.of_nat r))%nat
        with (Z.to_nat bi) in Ht by lia.
      rewrite Ht, take_app_le by (rewrite length_take; lia).
      rewrite take_take. f_equal. lia.
    + rewrite Hd.
      rewrite app_assoc, drop_app_ge by (rewrite length_app, length_take; lia).
      rewrite length_app, length_take, Hrecs, drop_drop. f_equal. lia.
Qed.

Lemma total_nodes_cons sk rest :
  total_nodes (sk :: rest) = nodesCount (info sk) + total_nodes rest.
Proof. reflexivity. Qed.

Lemma total_nodes_nonneg rest :
  Forall skeleton_wf rest -> 0 <= total_nodes rest.
Proof.
  induction 1 as [|sk rest [[H0 _] _] _ IH]; [reflexivity|].
  rewrite total_nodes_cons. lia.
Qed.

Lemma skeleton_records_length ni sk :
  skeleton_wf sk ->
  Z.of_nat (length (skeleton_records ni sk)) = nodesCount (info sk).
Proof.
  intros [[H0 _] Hlen]. unfold skeleton_records.
  rewrite node_records_length, length_take. lia.
Qed.

Lemma all_records_length infos rest : forall i,
  Forall skeleton_wf rest ->
  Z.of_nat (length (all_records infos rest i)) = total_nodes rest.
Proof.
  induction rest as [|sk rest IH]; intros i Hwf; [reflexivity|].
  inversion Hwf as [|? ? Hsk Hrest]; subst.
  simpl all_records. rewrite length_app, Nat2Z.inj_add, IH by assumption.
  rewrite skeleton_records_length by assumption. reflexivity.
Qed.

(** When everything fits and every lookup succeeds, the loop completes
    and stores all the records, skeleton after skeleton. *)
Lemma skeleton_loop_all sdk infos C rest : forall i buf bi,
  Forall skeleton_wf rest ->
  (forall k sk, rest !! k = Some sk ->
     sdk (i + k)%nat (gloveId (info sk)) (nodesCount (info sk)) = Some (infos (i + k)%nat)) ->
  0 <= bi ->
  bi + total_nodes rest <= C ->
  C <= Z.of_nat (length buf) ->
  C < U32.modulus ->
  skeleton_loop sdk rest i C buf bi =
  Ok (take (Z.to_nat bi) buf ++ all_records infos rest i
        ++ drop (Z.to_nat (bi + total_nodes rest)) buf,
      bi + total_nodes rest).
Proof.
  induction rest as [|sk rest IH]; intros i buf bi Hwf Hsdk Hbi Hfit HL HC.
  - simpl. rewrite Z.add_0_r, take_drop. reflexivity.
  - inversion Hwf as [|? ? Hsk Hrest]; subst.
    pose proof (total_nodes_nonneg _ Hrest) as Htot.
    pose proof (skeleton_records_length (infos i) sk Hsk) as Hrl.
    destruct Hsk as [[Hn0 Hn1] Hlen].
    rewrite total_nodes_cons in *.
    simpl skeleton_loop.
    rewrite add_small by (unfold U32.in_range; lia).
    destruct (Z.ltb_spec C (bi + nodesCount (info sk))) as [?|_]; [lia|].
    pose proof (Hsdk 0%nat sk eq_refl) as H0. rewrite Nat.add_0_r in H0. rewrite H0.
    rewrite node_loop_complete; rewrite ?drop_0; try lia.
    simpl obind. rewrite Z2Nat.id by lia.
    rewrite IH; try assumption; try lia.
    + f_equal. f_equal; [|lia].
      fold (skeleton_records (infos i) sk) in *.
      set (recs := skeleton_records (infos i) sk) in *.
      assert (Hr : length recs = Z.to_nat (nodesCount (info sk))) by lia.
      simpl all_records. fold recs.
      rewrite take_app_ge by (rewrite length_take; lia).
      rewrite length_take.
      replace (Z.to_nat (bi + nodesCount (info sk)) - Z.to_nat bi `min` length buf)%nat
        with (length recs) by lia.
      rewrite take_app_length.
      rewrite drop_app_ge by (rewrite length_take; lia).
      rewrite drop_app_ge by (rewrite length_take; lia).
      rewrite length_take, drop_drop, <- !app_assoc.
      do 4 f_equal. lia.
    + intros k sk' Hk. specialize (Hsdk (S k) sk' Hk).
      now replace (S i + k)%nat with (i + S k)%nat by lia.
    + fold (skeleton_records (infos i) sk).
      rewrite !length_app, length_take, length_drop. lia.
Qed.

(** The check of line 217 breaks out of the loop: a skeleton that fails
    it, and everything after it in the snapshot, contributes nothing. *)
Lemma skeleton_loop_break sdk C sk post : forall pre i buf bi buf1 b1,
  skeleton_loop sdk pre i C buf bi = Ok (buf1, b1) ->
  C < U32.add b1 (nodesCount (info sk)) ->
  skeleton_loop sdk (pre ++ sk :: post) i C buf bi = Ok (buf1, b1).
Proof.
  induction pre as [|s pre IH]; intros i buf bi buf1 b1 H Hov.
  - simpl in H. injection H as <- <-. simpl.
    apply Z.ltb_lt in Hov. now rewrite Hov.
  - simpl in H |- *.
    destruct (C <? U32.add bi (nodesCount (info s))); [exact H|].
    destruct (sdk i (gloveId (info s)) (nodesCount (info s))) as [ni|].
    2:{ now apply IH. }
    destruct (node_loop _ _ _ _ _ _ _) as [[buf2 b2]|]; [|discriminate].
    simpl in H |- *. now apply IH.
Qed.

(** A failed lookup skips the skeleton: the loop goes on with the next
    one, the buffer and the counter as they were. *)
Lemma skeleton_loop_skip sdk C sk rest i buf bi :
  U32.add bi (nodesCount (info sk)) <= C ->
  sdk i (gloveId (info sk)) (nodesCount (info sk)) = None ->
  skeleton_loop sdk (sk :: rest) i C buf bi =
  skeleton_loop sdk rest (S i) C buf bi.
Proof.
  intros Hchk Hsdk. simpl.
  destruct (Z.ltb_spec C (U32.add bi (nodesCount (info sk)))) as [?|_]; [lia|].
  now rewrite Hsdk.
Qed.

(** ** [flatten] and [Bridge::Poll] *)

Lemma take_all_skeletons (l : list ClientRawSkeleton) :
  Z.of_nat (length l) < U32.modulus ->
  take (Z.to_nat (U32.wrap (Z.of_nat (length l)))) l = l.
Proof.
  intros H. rewrite wrap_small by (unfold U32.in_range; lia).
  rewrite Nat2Z.id. apply firstn_all.
Qed.

Lemma flatten_wf sdk c C buf :
  Z.of_nat (length (skeletons c)) < U32.modulus ->
  flatten sdk c C buf = skeleton_loop sdk (skeletons c) 0 C buf 0.
Proof. intros H. unfold flatten. now rewrite take_all_skeletons. Qed.

Lemma in_range_0 : U32.in_range 0.
Proof. unfold U32.in_range. rewrite modulus_eq. lia. Qed.

Lemma flatten_index sdk c C buf buf' n :
  U32.in_range C ->
  flatten sdk c C buf = Ok (buf', n) ->
  0 <= n <= C.
Proof.
  intros [HC0 HC1] H. unfold flatten in H.
  apply skeleton_loop_index in H; [|apply in_range_0|exact HC0].
  destruct H as [[? ?] ?]. lia.
Qed.

Lemma flatten_frame sdk c C buf buf' n :
  Z.of_nat (length buf) < U32.modulus ->
  flatten sdk c C buf = Ok (buf', n) ->
  0 <= n <= Z.of_nat (length buf) /\
  length buf' = length buf /\
  drop (Z.to_nat n) buf' = drop (Z.to_nat n) buf.
Proof.
  intros HL H. unfold flatten in H.
  apply skeleton_loop_frame in H; [|lia|exact HL].
  destruct H as (? & ? & _ & ?). auto.
Qed.

(** The two ways in which [Bridge::Poll] completes. *)
Lemma Poll_inv sdk b h buf C b' h' buf' n :
  Poll sdk b h buf C = Ok (b', h', buf', n) ->
  claim b h = Ok (b', h') /\
  ((m_RawSkeleton b' = None /\ buf' = buf /\ n = 0) \/
   (exists p c, m_RawSkeleton b' = Some p /\ live h' !! p = Some c /\
                flatten sdk c C buf = Ok (buf', n))).
Proof.
  unfold Poll. intros H.
  destruct (claim b h) as [[b1 h1]|]; [|discriminate]. simpl in H.
  destruct (m_RawSkeleton b1) as [p|] eqn:Hp.
  - unfold heap_deref in H.
    destruct (live h1 !! p) as [c|] eqn:Hc; [|discriminate]. simpl in H.
    destruct (length (skeletons c) =? 0)%nat eqn:He.
    + injection H as <- <- <- <-. split; [reflexivity|]. right.
      exists p, c. repeat split; try assumption.
      apply Nat.eqb_eq in He. unfold flatten. rewrite He. reflexivity.
    + destruct (flatten sdk c C buf) as [[buf2 n2]|] eqn:Hf; [|discriminate].
      injection H as <- <- <- <-. split; [reflexivity|]. right.
      exists p, c. repeat split; assumption.
  - injection H as <- <- <- <-. split; [reflexivity|]. left. now rewrite Hp.
Qed.

(** [Bridge::Poll] once the claim has produced a snapshot. *)
Lemma Poll_claimed sdk b h buf C b' h' p c :
  claim b h = Ok (b', h') ->
  m_RawSkeleton b' = Some p ->
  live h' !! p = Some c ->
  Poll sdk b h buf C =
  obind (flatten sdk c C buf) (fun r => Ok (b', h', fst r, snd r)).
Proof.
  intros Hc Hp Hl. unfold Poll. rewrite Hc. simpl. rewrite Hp.
  unfold heap_deref. rewrite Hl. simpl.
  destruct (length (skeletons c) =? 0)%nat eqn:He.
  - apply Nat.eqb_eq in He. unfold flatten. rewrite He. reflexivity.
  - destruct (flatten sdk c C buf) as [[buf2 n2]|]; reflexivity.
Qed.

(** A well-formed snapshot of fewer than [2^32] nodes in all is
    flattened without leaving the buffer or a node vector. *)
Lemma skeleton_loop_completes sdk C rest : forall i buf bi,
  Forall skeleton_wf rest ->
  0 <= bi <= C ->
  C <= Z.of_nat (length buf) ->
  bi + total_nodes rest < U32.modulus ->
  exists buf' bi', skeleton_loop sdk rest i C buf bi = Ok (buf', bi').
Proof.
  induction rest as [|sk rest IH]; intros i buf bi Hwf Hbi HL Hm.
  - simpl. eauto.
  - inversion Hwf as [|? ? Hsk Hrest]; subst.
    pose proof (total_nodes_nonneg _ Hrest) as Htot.
    destruct Hsk as [[Hn0 Hn1] Hlen].
    rewrite total_nodes_cons in Hm. simpl.
    rewrite add_small by (unfold U32.in_range; lia).
    destruct (Z.ltb_spec C (bi + nodesCount (info sk))) as [?|Hchk]; [eauto|].
    destruct (sdk i (gloveId (info sk)) (nodesCount (info sk))) as [ni|].
    2:{ apply IH; try assumption; lia. }
    rewrite node_loop_complete; rewrite ?drop_0; try lia.
    simpl. apply IH; try assumption; try lia.
    rewrite !length_app, length_take, length_drop, node_records_length, length_take. lia.
Qed.

Lemma flatten_completes sdk c C buf :
  snapshot_wf c ->
  U32.in_range C ->
  C <= Z.of_nat (length buf) ->
  total_nodes (skeletons c) < U32.modulus ->
  exists buf' n, flatten sdk c C buf = Ok (buf', n).
Proof.
  intros [Hlen Hwf] [HC0 HC1] HL Hm. rewrite flatten_wf by exact Hlen.
  apply skeleton_loop_completes; try assumption; lia.
Qed.

(** One skeleton that fits and whose lookup succeeds, flattened from the
    start of the buffer. *)
Lemma skeleton_loop_single sdk good ni C (buf : buffer_t) i :
  U32.in_range C ->
  C <= Z.of_nat (length buf) ->
  skeleton_wf good ->
  nodesCount (info good) <= C ->
  sdk i (gloveId (info good)) (nodesCount (info good)) = Some ni ->
  skeleton_loop sdk [good] i C buf 0
  = Ok (skeleton_records ni good ++ drop (Z.to_nat (nodesCount (info good))) buf,
        nodesCount (info good)).
Proof.
  intros [HC0 HC1] HL Hg Hn Hsdk.
  assert (Hwf : Forall skeleton_wf [good]) by (constructor; [exact Hg | constructor]).
  assert (Hl : forall k sk, [good] !! k = Some sk ->
            sdk (i + k)%nat (gloveId (info sk)) (nodesCount (info sk))
            = Some ((fun _ => ni) (i + k)%nat)).
  { intros [|k] sk Hk; simpl in Hk; inversion Hk; subst. now rewrite Nat.add_0_r. }
  assert (Ht : total_nodes [good] = nodesCount (info good)).
  { rewrite total_nodes_cons. simpl. lia. }
  rewrite (skeleton_loop_all sdk (fun _ => ni) C [good] i buf 0 Hwf Hl);
    rewrite ?Ht; try lia.
  simpl. now rewrite app_nil_r.
Qed.

(** * The flattening *)

(** C3. For every snapshot and every capacity [C], a poll that completes
    reports a count of at most [C]; and when the node counts of the
    claimed snapshot add up to at most [C] and every lookup succeeds,
    the poll completes, reports that sum, and the buffer starts with the
    records of all the nodes, skeleton after skeleton and node after node. *)
Theorem Poll_capacity_bound (sdk : NodeInfoLookup) (b : Bridge) (h : Heap)
    (buffer : buffer_t) (buffer_size : Z) :
  U32.in_range buffer_size ->
  (forall b' h' buffer' count,
     Poll sdk b h buffer buffer_size = Ok (b', h', buffer', count) ->
     0 <= count <= buffer_size) /\
  (forall b' h' p c infos,
     claim b h = Ok (b', h') ->
     m_RawSkeleton b' = Some p ->
     live h' !! p = Some c ->
     snapshot_wf c ->
     (forall i sk, skeletons c !! i = Some sk ->
        sdk i (gloveId (info sk)) (nodesCount (info sk)) = Some (infos i)) ->
     total_nodes (skeletons c) <= buffer_size ->
     buffer_size <= Z.of_nat (length buffer) ->
     Poll sdk b h buffer buffer_size =
     Ok (b', h',
         all_records infos (skeletons c) 0
           ++ drop (Z.to_nat (total_nodes (skeletons c))) buffer,
         total_nodes (skeletons c))).
Proof.
  intros HC. split.
  - intros b' h' buffer' count H.
    apply Poll_inv in H. destruct H as [_ [(_ & _ & ->)|(p & c & _ & _ & H)]].
    + destruct HC. lia.
    + eapply flatten_index; eauto.
  - intros b' h' p c infos Hc Hp Hl [Hlen Hwf] Hsdk Htot HL.
    rewrite (Poll_claimed _ _ _ _ _ _ _ _ _ Hc Hp Hl).
    rewrite flatten_wf by exact Hlen.
    destruct HC as [HC0 HC1].
    rewrite (skeleton_loop_all sdk infos); try assumption; try lia.
    reflexivity.
Qed.

Lemma Poll_capacity_bound_witness :
  U32.in_range 10 /\
  Poll Sample.sdk_ok (fst (Sample.pending Sample.snapshot35))
       (snd (Sample.pending Sample.snapshot35)) (Sample.blank 10) 10
  = Ok ({| m_NextRawSkeleton := None; m_RawSkeleton := Some 0%nat |},
        snd (Sample.pending Sample.snapshot35),
        all_records (fun _ => Sample.node_info) [Sample.sk3; Sample.sk5] 0
          ++ drop 8 (Sample.blank 10),
        8) /\
  0 <= 8 <= 10.
Proof.
  assert (Hr : U32.in_range 10) by in_range_tac.
  destruct (Poll_capacity_bound Sample.sdk_ok (fst (Sample.pending Sample.snapshot35))
              (snd (Sample.pending Sample.snapshot35)) (Sample.blank 10) 10 Hr)
    as [Hbound Hall].
  assert (HP := Hall {| m_NextRawSkeleton := None; m_RawSkeleton := Some 0%nat |}
                  (snd (Sample.pending Sample.snapshot35)) 0%nat Sample.snapshot35
                  (fun _ => Sample.node_info)).
  lapply HP; [clear HP; intros HP|reflexivity].
  lapply HP; [clear HP; intros HP|reflexivity].
  lapply HP; [clear HP; intros HP|reflexivity].
  lapply HP; [clear HP; intros HP|].
  2:{ wf_tac. }
  lapply HP; [clear HP; intros HP|].
  2:{ intros [|[|i]] sk Hi; simpl in Hi; inversion Hi; reflexivity. }
  lapply HP; [clear HP; intros HP|simpl; lia].
  lapply HP; [clear HP; intros HP|simpl; lia].
  split; [exact Hr|]. split; [exact HP|].
  exact (Hbound _ _ _ _ HP).
Defined.

(** C4. The capacity check is made once per skeleton. When the flattening
    of the skeletons [pre] has reached the counter [written] and the
    32-bit sum [written + nodesCount] computed at line 217 for the next
    skeleton exceeds the capacity, the flattening of
    [pre ++ sk :: post] completes with the buffer and the count of [pre]
    alone: nothing of [sk], nothing of [post]. With skeletons of 3 and 5
    nodes, capacity 4 and a successful lookup for the first, the count
    is 3 and the buffer holds the three records of the first skeleton. *)
Theorem flatten_overflow_stops :
  (forall (sdk : NodeInfoLookup) (pre post : list ClientRawSkeleton)
          (sk : ClientRawSkeleton) (buffer_size : Z) (buffer buffer1 : buffer_t)
          (written : Z),
     Z.of_nat (length (pre ++ sk :: post)) < U32.modulus ->
     flatten sdk {| skeletons := pre |} buffer_size buffer = Ok (buffer1, written) ->
     buffer_size < U32.add written (nodesCount (info sk)) ->
     flatten sdk {| skeletons := pre ++ sk :: post |} buffer_size buffer
     = Ok (buffer1, written)) /\
  (forall (sdk : NodeInfoLookup) (sk0 sk1 : ClientRawSkeleton)
          (ni : nat -> NodeInfo) (buffer : buffer_t),
     skeleton_wf sk0 ->
     nodesCount (info sk0) = 3 ->
     nodesCount (info sk1) = 5 ->
     sdk 0%nat (gloveId (info sk0)) 3 = Some ni ->
     4 <= Z.of_nat (length buffer) ->
     flatten sdk {| skeletons := [sk0; sk1] |} 4 buffer
     = Ok (skeleton_records ni sk0 ++ drop 3 buffer, 3)).
Proof.
  split.
  - intros sdk pre post sk C buf buf1 b1 Hlen Hpre Hov.
    rewrite length_app in Hlen. simpl in Hlen.
    rewrite flatten_wf in Hpre by (simpl; lia).
    rewrite flatten_wf by (simpl; rewrite length_app; simpl; lia).
    simpl. now apply skeleton_loop_break.
  - intros sdk sk0 sk1 ni buf Hwf H0 H1 Hsdk HL.
    rewrite flatten_wf by (simpl; rewrite modulus_eq; lia).
    simpl skeletons.
    change [sk0; sk1] with ([sk0] ++ sk1 :: []).
    apply skeleton_loop_break.
    + rewrite (skeleton_loop_single sdk sk0 ni 4 buf 0); rewrite ?H0;
        try assumption; try lia; try in_range_tac.
      reflexivity.
    + rewrite H1. reflexivity.
Qed.

Lemma flatten_overflow_stops_witness :
  flatten Sample.sdk_ok {| skeletons := [Sample.sk3] ++ Sample.sk5 :: [Sample.sk3] |}
          4 (Sample.blank 4)
  = Ok (skeleton_records Sample.node_info Sample.sk3 ++ drop 3 (Sample.blank 4), 3) /\
  flatten Sample.sdk_ok Sample.snapshot35 4 (Sample.blank 4)
  = Ok (skeleton_records Sample.node_info Sample.sk3 ++ drop 3 (Sample.blank 4), 3).
Proof.
  destruct flatten_overflow_stops as [Hstop Hscenario]. split.
  - apply Hstop.
    + simpl. rewrite modulus_eq. lia.
    + reflexivity.
    + reflexivity.
  - apply Hscenario.
    + wf_tac.
    + reflexivity.
    + reflexivity.
    + reflexivity.
    + simpl. lia.
Defined.

(** C7. A skeleton that passes the capacity check and whose node
    information lookup fails is skipped as a whole: the loop goes on
    with the next skeleton, the buffer and the counter untouched. For a
    snapshot of one skeleton whose lookup fails and one, with at least
    one node, whose lookup succeeds, in either order, the buffer starts
    with exactly the records of the successful skeleton and the count,
    their number, is positive. *)
Theorem flatten_skips_failed_lookup :
  (forall (sdk : NodeInfoLookup) (sk : ClientRawSkeleton)
          (rest : list ClientRawSkeleton) (i : nat) (buffer_size : Z)
          (buffer : buffer_t) (buffer_index : Z),
     U32.add buffer_index (nodesCount (info sk)) <= buffer_size ->
     sdk i (gloveId (info sk)) (nodesCount (info sk)) = None ->
     skeleton_loop sdk (sk :: rest) i buffer_size buffer buffer_index
     = skeleton_loop sdk rest (S i) buffer_size buffer buffer_index) /\
  (forall (sdk : NodeInfoLookup) (failed good : ClientRawSkeleton)
          (ni : nat -> NodeInfo) (buffer_size : Z) (buffer : buffer_t),
     U32.in_range buffer_size ->
     buffer_size <= Z.of_nat (length buffer) ->
     skeleton_wf failed -> skeleton_wf good ->
     nodesCount (info failed) <= buffer_size ->
     0 < nodesCount (info good) <= buffer_size ->
     sdk 0%nat (gloveId (info failed)) (nodesCount (info failed)) = None ->
     sdk 1%nat (gloveId (info good)) (nodesCount (info good)) = Some ni ->
     flatten sdk {| skeletons := [failed; good] |} buffer_size buffer
     = Ok (skeleton_records ni good ++ drop (Z.to_nat (nodesCount (info good))) buffer,
           nodesCount (info good))
     /\ 0 < nodesCount (info good)) /\
  (forall (sdk : NodeInfoLookup) (failed good : ClientRawSkeleton)
          (ni : nat -> NodeInfo) (buffer_size : Z) (buffer : buffer_t),
     U32.in_range buffer_size ->
     buffer_size <= Z.of_nat (length buffer) ->
     skeleton_wf failed -> skeleton_wf good ->
     0 < nodesCount (info good) <= buffer_size ->
     sdk 0%nat (gloveId (info good)) (nodesCount (info good)) = Some ni ->
     sdk 1%nat (gloveId (info failed)) (nodesCount (info failed)) = None ->
     flatten sdk {| skeletons := [good; failed] |} buffer_size buffer
     = Ok (skeleton_records ni good ++ drop (Z.to_nat (nodesCount (info good))) buffer,
           nodesCount (info good))
     /\ 0 < nodesCount (info good)).
Proof.
  split; [|split].
  - intros. now apply skeleton_loop_skip.
  - intros sdk failed good ni C buf HC HL Hf Hg Hnf Hng Hsf Hsg.
    split; [|lia].
    rewrite flatten_wf by (simpl; rewrite modulus_eq; lia). simpl skeletons.
    rewrite skeleton_loop_skip; try assumption.
    + apply skeleton_loop_single; try assumption; lia.
    + destruct Hf as [[? ?] _]. rewrite add_small by (unfold U32.in_range; lia). lia.
  - intros sdk failed good ni C buf HC HL Hf Hg Hng Hsg Hsf.
    split; [|lia].
    rewrite flatten_wf by (simpl; rewrite modulus_eq; lia). simpl skeletons.
    assert (H1 := skeleton_loop_single sdk good ni C buf 0%nat HC HL Hg (proj2 Hng) Hsg).
    destruct (Z.ltb_spec C (U32.add (nodesCount (info good)) (nodesCount (info failed))))
      as [Hov|Hfit].
    + change [good; failed] with ([good] ++ failed :: []).
      now apply skeleton_loop_break.
    + simpl in H1 |- *.
      destruct (C <? U32.add 0 (nodesCount (info good))); [exact H1|].
      rewrite Hsg in H1 |- *.
      destruct (node_loop _ _ _ _ _ _ _) as [[buf1 b1]|]; [|discriminate].
      simpl in H1 |- *. injection H1 as -> ->.
      destruct (Z.ltb_spec C (U32.add (nodesCount (info good)) (nodesCount (info failed))))
        as [?|_]; [lia|].
      now rewrite Hsf.
Qed.

Lemma flatten_skips_failed_lookup_witness :
  skeleton_loop (Sample.sdk_without 7) [Sample.sk3; Sample.sk5] 0 10 (Sample.blank 10) 0
  = skeleton_loop (Sample.sdk_without 7) [Sample.sk5] 1 10 (Sample.blank 10) 0 /\
  (flatten (Sample.sdk_without 7) Sample.snapshot35 10 (Sample.blank 10)
   = Ok (skeleton_records Sample.node_info Sample.sk5 ++ drop 5 (Sample.blank 10), 5)
   /\ 0 < 5) /\
  (flatten (Sample.sdk_without 7) Sample.snapshot53 10 (Sample.blank 10)
   = Ok (skeleton_records Sample.node_info Sample.sk5 ++ drop 5 (Sample.blank 10), 5)
   /\ 0 < 5).
Proof.
  destruct flatten_skips_failed_lookup as (Hskip & Hfirst & Hsecond).
  split; [|split].
  - apply Hskip; [vm_compute; discriminate | reflexivity].
  - apply (Hfirst (Sample.sdk_without 7) Sample.sk3 Sample.sk5 Sample.node_info
             10 (Sample.blank 10)).
    + in_range_tac.
    + simpl. lia.
    + wf_tac.
    + wf_tac.
    + simpl. lia.
    + simpl. lia.
    + reflexivity.
    + reflexivity.
  - apply (Hsecond (Sample.sdk_without 7) Sample.sk3 Sample.sk5 Sample.node_info
             10 (Sample.blank 10)).
    + in_range_tac.
    + simpl. lia.
    + wf_tac.
    + wf_tac.
    + simpl. lia.
    + reflexivity.
    + reflexivity.
Defined.

(** C10. A poll on a buffer of [buffer_size] entries that completes and
    reports [count] has left every entry of the buffer from index
    [count] on as it was (and the buffer as long as it was): the entries
    it has stored into are among the first [count]. *)
Theorem Poll_frame (sdk : NodeInfoLookup) (b : Bridge) (h : Heap)
    (buffer : buffer_t) (buffer_size : Z)
    (b' : Bridge) (h' : Heap) (buffer' : buffer_t) (count : Z) :
  U32.in_range buffer_size ->
  Z.of_nat (length buffer) = buffer_size ->
  Poll sdk b h buffer buffer_size = Ok (b', h', buffer', count) ->
  0 <= count <= buffer_size /\
  length buffer' = length buffer /\
  forall k : nat, (Z.to_nat count <= k)%nat -> buffer' !! k = buffer !! k.
Proof.
  intros [HC0 HC1] HL H.
  apply Poll_inv in H. destruct H as [_ [(_ & -> & ->)|(p & c & _ & _ & H)]].
  - repeat split; try lia.
  - apply flatten_frame in H; [|lia].
    destruct H as (Hn & Hlen & Hdrop).
    repeat split; try lia.
    intros k Hk.
    replace k with (Z.to_nat count + (k - Z.to_nat count))%nat by lia.
    rewrite <- !lookup_drop. now rewrite Hdrop.
Qed.

Lemma Poll_frame_witness :
  exists buffer',
    Poll Sample.sdk_ok (fst (Sample.pending Sample.snapshot35))
         (snd (Sample.pending Sample.snapshot35)) (Sample.blank 4) 4
    = Ok ({| m_NextRawSkeleton := None; m_RawSkeleton := Some 0%nat |},
          snd (Sample.pending Sample.snapshot35), buffer', 3) /\
    0 <= 3 <= 4 /\
    length buffer' = 4%nat /\
    buffer' !! 3%nat = Some Sample.pose0.
Proof.
  eexists. split; [reflexivity|].
  destruct (Poll_frame Sample.sdk_ok (fst (Sample.pending Sample.snapshot35))
              (snd (Sample.pending Sample.snapshot35)) (Sample.blank 4) 4
              _ _ _ 3 ltac:(in_range_tac) eq_refl eq_refl) as (Hc & Hl & Hk).
  split; [exact Hc|]. split; [exact Hl|].
  exact (Hk 3%nat (le_n 3)).
Defined.

(** * The hand-off slot *)

Lemma slot_inv_start : slot_inv slot_start.
Proof.
  split; simpl.
  - constructor.
  - intros p. rewrite lookup_empty. split; [intros [? ?]; discriminate|].
    intros H. now apply not_elem_of_nil in H.
  - intros p. split; [lia|]. intros H. now apply not_elem_of_nil in H.
Qed.

Lemma slot_inv_fresh st :
  slot_inv st ->
  live (snd st) !! created (snd st) = None /\
  created (snd st) ∉ held (fst st) ++ destroyed (snd st).
Proof.
  intros [Hnd Hlive Hacc].
  assert (H : created (snd st) ∉ held (fst st) ++ destroyed (snd st)).
  { intros Hin. apply Hacc in Hin. lia. }
  split; [|exact H].
  destruct (live (snd st) !! created (snd st)) eqn:E; [|reflexivity].
  exfalso. apply H. apply elem_of_app. left. apply Hlive. eauto.
Qed.

Lemma slot_publish_spec c st :
  slot_inv st ->
  exists st',
    slot_publish c st = Ok st' /\
    slot_inv st' /\
    m_NextRawSkeleton (fst st') = Some (created (snd st)) /\
    m_RawSkeleton (fst st') = m_RawSkeleton (fst st) /\
    live (snd st') !! created (snd st) = Some c /\
    created (snd st') = S (created (snd st)) /\
    destroyed (snd st') = option_list (m_NextRawSkeleton (fst st)) ++ destroyed (snd st).
Proof.
  intros Hinv. destruct (slot_inv_fresh st Hinv) as [Hfresh Hnew].
  destruct Hinv as [Hnd Hlive Hacc].
  destruct st as [[nxt raw] [lv cr ds]]. unfold held in *. simpl in *.
  unfold slot_publish, publish, heap_new. simpl.
  destruct nxt as [q|]; simpl in *.
  - assert (Hq : is_Some (lv !! q)) by (apply Hlive; set_solver).
    destruct Hq as [cq Hq].
    assert (Hqc : q <> cr) by congruence.
    unfold heap_delete. simpl. rewrite lookup_insert_ne by congruence. rewrite Hq. simpl.
    eexists. split; [reflexivity|]. simpl.
    split; [|repeat split; try reflexivity;
              now rewrite lookup_delete_ne, lookup_insert_eq by congruence].
    apply NoDup_cons in Hnd. destruct Hnd as [Hq1 Hnd].
    split; unfold held; simpl.
    + apply NoDup_cons. split; [set_solver|].
      apply NoDup_app in Hnd. destruct Hnd as (Hr & Hrd & Hd).
      apply NoDup_app. repeat split; [exact Hr| |apply NoDup_cons; set_solver].
      intros x Hx. specialize (Hrd x Hx). set_solver.
    + intros p. rewrite lookup_delete, lookup_insert.
      repeat case_decide; subst.
      * split; [intros [? ?]; discriminate|]. set_solver.
      * split; [set_solver|eauto].
      * rewrite Hlive. set_solver.
    + intros p. split.
      * intros Hp. destruct (decide (p = cr)) as [->|Hne]; [set_solver|].
        assert (Hlt : (p < cr)%nat) by lia. apply Hacc in Hlt. set_solver.
      * intros Hp. assert (p = cr \/ (p < cr)%nat); [|lia].
        rewrite Hacc. set_solver.
  - eexists. split; [reflexivity|]. simpl.
    split; [|repeat split; try reflexivity; now rewrite lookup_insert_eq].
    split; unfold held; simpl.
    + apply NoDup_cons. split; [set_solver|exact Hnd].
    + intros p. rewrite lookup_insert.
      case_decide; subst.
      * split; [set_solver|eauto].
      * rewrite Hlive. set_solver.
    + intros p. split.
      * intros Hp. destruct (decide (p = cr)) as [->|Hne]; [set_solver|].
        assert (Hlt : (p < cr)%nat) by lia. apply Hacc in Hlt. set_solver.
      * intros Hp. assert (p = cr \/ (p < cr)%nat); [|lia].
        rewrite Hacc. set_solver.
Qed.

(** A claim completes: it hands over what was pending, leaves the slot
    empty, and destroys the snapshot claimed before. *)
Lemma slot_claim_spec st :
  slot_inv st ->
  exists b' h',
    slot_claim st = Ok (b', h', slot_pending st) /\
    slot_inv (b', h') /\
    m_NextRawSkeleton b' = None /\
    m_RawSkeleton b' = m_NextRawSkeleton (fst st) /\
    created h' = created (snd st) /\
    destroyed h' = option_list (m_RawSkeleton (fst st)) ++ destroyed (snd st).
Proof.
  intros [Hnd Hlive Hacc].
  destruct st as [[nxt raw] [lv cr ds]]. unfold held, slot_pending in *. simpl in *.
  unfold slot_claim, claim. simpl.
  assert (Hres : forall lv', (forall p, nxt = Some p -> lv' !! p = lv !! p) ->
            forall h',
            match nxt with
            | Some p => obind (heap_deref p {| live := lv'; created := cr; destroyed := h' |})
                          (fun c0 => Ok ({| m_NextRawSkeleton := None; m_RawSkeleton := nxt |},
                                         {| live := lv'; created := cr; destroyed := h' |},
                                         Some (p, c0)))
            | None => Ok ({| m_NextRawSkeleton := None; m_RawSkeleton := nxt |},
                          {| live := lv'; created := cr; destroyed := h' |}, None)
            end
            = Ok ({| m_NextRawSkeleton := None; m_RawSkeleton := nxt |},
                  {| live := lv'; created := cr; destroyed := h' |},
                  match nxt with Some p => (fun c0 => (p, c0)) <$> lv !! p | None => None end)).
  { intros lv' Hsame h'. destruct nxt as [p|]; [|reflexivity].
    unfold heap_deref. simpl. rewrite (Hsame p eq_refl).
    assert (Hp : is_Some (lv !! p)) by (apply Hlive; set_solver).
    destruct Hp as [cp Hp]. rewrite Hp. reflexivity. }
  destruct raw as [q|]; simpl in *.
  - assert (Hq : is_Some (lv !! q)) by (apply Hlive; set_solver).
    destruct Hq as [cq Hq]. rewrite Hq. simpl.
    assert (Hqn : nxt <> Some q).
    { intros ->. simpl in Hnd. apply NoDup_cons in Hnd. set_solver. }
    do 2 eexists. split; [apply Hres|].
    { intros p ->. apply lookup_delete_ne. congruence. }
    split; [|repeat split; reflexivity].
    split; unfold held; simpl.
    + rewrite <- app_assoc in Hnd. exact Hnd.
    + intros p. rewrite lookup_delete. case_decide; subst.
      * split; [intros [? ?]; discriminate|]. destruct nxt; set_solver.
      * rewrite Hlive. destruct nxt; set_solver.
    + intros p. rewrite Hacc. destruct nxt; set_solver.
  - do 2 eexists. split; [apply Hres; reflexivity|].
    split; [|repeat split; reflexivity].
    split; unfold held; simpl.
    + rewrite app_nil_r in *. exact Hnd.
    + intros p. rewrite Hlive. destruct nxt; set_solver.
    + intros p. rewrite Hacc. destruct nxt; set_solver.
Qed.

(** ** Runs *)

Lemma slot_run_app ops1 : forall ops2 st,
  slot_run (ops1 ++ ops2) st =
  obind (slot_run ops1 st) (fun r1 =>
    obind (slot_run ops2 (fst r1)) (fun r2 =>
      Ok (fst r2, snd r1 ++ snd r2))).
Proof.
  induction ops1 as [|op ops1 IH]; intros ops2 st; simpl.
  - destruct (slot_run ops2 st) as [[st2 rs2]|]; reflexivity.
  - destruct op as [c|].
    + destruct (slot_publish c st) as [st1|]; [|reflexivity]. simpl. apply IH.
    + destruct (slot_claim st) as [[[b1 h1] r]|]; [|reflexivity]. simpl.
      rewrite IH.
      destruct (slot_run ops1 (b1, h1)) as [[st1 rs1]|]; [|reflexivity]. simpl.
      destruct (slot_run ops2 st1) as [[st2 rs2]|]; reflexivity.
Qed.

Lemma count_publishes_cons op ops :
  count_publishes (op :: ops) =
  ((if is_publish op then 1 else 0) + count_publishes ops)%nat.
Proof. unfold count_publishes. rewrite filter_cons. destruct op; reflexivity. Qed.

Lemma count_claims_cons op ops :
  count_claims (op :: ops) =
  ((if is_claim op then 1 else 0) + count_claims ops)%nat.
Proof. unfold count_claims. rewrite filter_cons. destruct op; reflexivity. Qed.

Lemma claimed_ids_cons r rs :
  claimed_ids (r :: rs) =
  match r with Some (p, _) => [p] | None => [] end ++ claimed_ids rs.
Proof. reflexivity. Qed.

Lemma claimed_ids_app rs1 rs2 :
  claimed_ids (rs1 ++ rs2) = claimed_ids rs1 ++ claimed_ids rs2.
Proof. unfold claimed_ids. apply bind_app. Qed.

Lemma slot_pending_held st p c :
  slot_inv st -> slot_pending st = Some (p, c) ->
  m_NextRawSkeleton (fst st) = Some p /\ (p < created (snd st))%nat.
Proof.
  intros [_ _ Hacc]. unfold slot_pending.
  destruct (m_NextRawSkeleton (fst st)) as [q|] eqn:Hq; [|discriminate].
  destruct (live (snd st) !! q); [|discriminate]. intros [= <- _].
  split; [reflexivity|]. apply Hacc. unfold held. rewrite Hq. set_solver.
Qed.

(** Every run from a state that obeys the discipline completes, and
    delivers each snapshot at most once. *)
Lemma slot_run_spec ops : forall st,
  slot_inv st ->
  exists st' rs,
    slot_run ops st = Ok (st', rs) /\
    slot_inv st' /\
    created (snd st') = (created (snd st) + count_publishes ops)%nat /\
    length rs = count_claims ops /\
    (forall p, p ∈ destroyed (snd st) -> p ∈ destroyed (snd st')) /\
    NoDup (claimed_ids rs) /\
    (forall p, p ∈ claimed_ids rs ->
       (m_NextRawSkeleton (fst st) = Some p \/ (created (snd st) <= p)%nat) /\
       (p < created (snd st'))%nat) /\
    slot_pending st' =
      match last ops with
      | None => slot_pending st
      | Some (Publish c) => Some ((created (snd st') - 1)%nat, c)
      | Some Claim => None
      end.
Proof.
  induction ops as [|op ops IH]; intros st Hinv.
  - exists st, []. simpl. split_and!; try reflexivity; try assumption.
    + unfold count_publishes. simpl. lia.
    + auto.
    + constructor.
    + intros p H. now apply not_elem_of_nil in H.
  - destruct op as [c|].
    + destruct (slot_publish_spec c st Hinv)
        as (st1 & Hrun & Hinv1 & Hnext & Hraw & Hlive & Hcr & Hds).
      destruct (IH st1 Hinv1) as (st' & rs & Hrun' & Hinv' & Hcr' & Hlen & Hmono & Hnd & Hids & Hpend).
      exists st', rs. simpl. rewrite Hrun. simpl. rewrite Hrun'.
      rewrite count_publishes_cons, count_claims_cons. simpl.
      split_and!; try reflexivity; try assumption; try lia.
      * intros p H. apply Hmono. rewrite Hds. set_solver.
      * intros p H. split; [|now apply Hids].
        destruct (Hids p H) as [[Hp|Hp] _]; right; [|lia].
        rewrite Hnext in Hp. injection Hp as <-. lia.
      * rewrite last_cons, Hpend.
        destruct (last ops) as [[c'|]|] eqn:Hl; try reflexivity.
        apply last_None in Hl. subst ops. simpl in Hrun'. injection Hrun' as <- _.
        unfold slot_pending. rewrite Hnext, Hlive. simpl.
        do 2 f_equal. rewrite Hcr. lia.
    + destruct (slot_claim_spec st Hinv)
        as (b1 & h1 & Hrun & Hinv1 & Hnext & Hraw & Hcr & Hds).
      destruct (IH (b1, h1) Hinv1)
        as (st' & rs & Hrun' & Hinv' & Hcr' & Hlen & Hmono & Hnd & Hids & Hpend).
      exists st', (slot_pending st :: rs). simpl. rewrite Hrun. simpl. rewrite Hrun'.
      rewrite count_publishes_cons, count_claims_cons. simpl in *.
      assert (Hrest : forall p, p ∈ claimed_ids rs ->
                (created (snd st) <= p)%nat /\ (p < created (snd st'))%nat).
      { intros p Hp. destruct (Hids p Hp) as [[Hp1|Hp1] Hp2]; [congruence|]. lia. }
      split_and!; try reflexivity; try assumption; try lia.
      * intros p H. apply Hmono. rewrite Hds. set_solver.
      * destruct (slot_pending st) as [[p c]|] eqn:Hp; [|exact Hnd]. simpl.
        apply NoDup_cons. split; [|exact Hnd].
        intros Hin. apply Hrest in Hin.
        apply slot_pending_held in Hp; [|exact Hinv]. lia.
      * intros p H.
        destruct (slot_pending st) as [[q c]|] eqn:Hp.
        2:{ destruct (Hrest p H). split; [now right|assumption]. }
        apply elem_of_app in H. destruct H as [H|H].
        2:{ destruct (Hrest p H). split; [now right|assumption]. }
        apply list_elem_of_singleton in H. subst q.
        destruct (slot_pending_held _ _ _ Hinv Hp). split; [now left|lia].
      * rewrite last_cons, Hpend.
        destruct (last ops) as [[c'|]|] eqn:Hl; try reflexivity.
        apply last_None in Hl. subst ops. simpl in Hrun'. injection Hrun' as <- _.
        unfold slot_pending. simpl. now rewrite Hnext.
Qed.

Lemma count_publishes_app ops1 ops2 :
  count_publishes (ops1 ++ ops2) = (count_publishes ops1 + count_publishes ops2)%nat.
Proof. unfold count_publishes. now rewrite filter_app, length_app. Qed.

(** C1. Every run of publications and claims on an empty slot
    completes, and in it:
    - a claim made after the operations [pre] returns the snapshot
      published last in [pre] when no claim came after that publication,
      and nothing otherwise;
    - no snapshot is returned by two claims;
    - a snapshot whose publication is directly followed by another
      publication is returned by no claim.
    After two publications a claim returns the second snapshot; the
    first has been destroyed and is returned by no claim of the run. *)
Theorem slot_latest_wins :
  (forall ops : list slot_op,
     exists st rs,
       slot_run ops slot_start = Ok (st, rs) /\
       (forall pre post, ops = pre ++ Claim :: post ->
          rs !! count_claims pre = Some (latest_unclaimed pre)) /\
       NoDup (claimed_ids rs) /\
       (forall pre c c' post, ops = pre ++ Publish c :: Publish c' :: post ->
          count_publishes pre ∉ claimed_ids rs)) /\
  (forall (c1 c2 : ClientRawSkeletonCollection) (post : list slot_op),
     exists st rs,
       slot_run (Publish c1 :: Publish c2 :: Claim :: post) slot_start
       = Ok (st, Some (1%nat, c2) :: rs) /\
       (0%nat ∉ claimed_ids (Some (1%nat, c2) :: rs)) /\
       (0%nat ∈ destroyed (snd st))).
Proof.
  split.
  - intros ops.
    destruct (slot_run_spec ops slot_start slot_inv_start)
      as (st & rs & Hrun & Hinv & Hcr & Hlen & _ & Hnd & Hids & Hpend).
    exists st, rs. split_and!; try assumption.
    + intros pre post ->.
      rewrite slot_run_app in Hrun.
      destruct (slot_run_spec pre slot_start slot_inv_start)
        as (st1 & rs1 & Hrun1 & Hinv1 & Hcr1 & Hlen1 & _ & _ & _ & Hpend1).
      rewrite Hrun1 in Hrun. simpl in Hrun.
      destruct (slot_claim_spec st1 Hinv1) as (b2 & h2 & Hc & _).
      rewrite Hc in Hrun. simpl in Hrun.
      destruct (slot_run post (b2, h2)) as [[st3 rs3]|]; [|discriminate].
      simpl in Hrun. injection Hrun as _ <-.
      rewrite <- Hlen1, list_lookup_middle by reflexivity. f_equal.
      rewrite Hpend1. unfold latest_unclaimed.
      destruct (last pre) as [[c|]|]; try reflexivity.
      now rewrite Hcr1.
    + intros pre c c' post -> Hin.
      rewrite slot_run_app in Hrun.
      destruct (slot_run_spec pre slot_start slot_inv_start)
        as (st1 & rs1 & Hrun1 & Hinv1 & Hcr1 & _ & _ & _ & Hids1 & _).
      rewrite Hrun1 in Hrun. simpl in Hrun.
      destruct (slot_publish_spec c st1 Hinv1)
        as (st2 & Hp2 & Hinv2 & _ & _ & _ & Hcr2 & _).
      rewrite Hp2 in Hrun. simpl in Hrun.
      destruct (slot_publish_spec c' st2 Hinv2)
        as (st3 & Hp3 & Hinv3 & Hnext3 & _ & _ & Hcr3 & _).
      rewrite Hp3 in Hrun. simpl in Hrun.
      destruct (slot_run_spec post st3 Hinv3)
        as (st4 & rs4 & Hrun4 & _ & _ & _ & _ & _ & Hids4 & _).
      rewrite Hrun4 in Hrun. simpl in Hrun. injection Hrun as _ <-.
      rewrite claimed_ids_app in Hin. simpl in Hcr1.
      apply elem_of_app in Hin. destruct Hin as [Hin|Hin].
      * apply Hids1 in Hin. lia.
      * apply Hids4 in Hin. destruct Hin as [[Hin|Hin] _].
        -- rewrite Hnext3 in Hin. injection Hin as Hin. lia.
        -- lia.
  - intros c1 c2 post.
    destruct (slot_run_spec [Publish c1; Publish c2; Claim] slot_start slot_inv_start)
      as (st3 & rs3 & Hrun3 & Hinv3 & _).
    change (slot_run [Publish c1; Publish c2; Claim] slot_start)
      with (Ok (({| m_NextRawSkeleton := None; m_RawSkeleton := Some 1%nat |},
                 {| live := delete 0%nat (<[1%nat := c2]> (<[0%nat := c1]> ∅));
                    created := 2; destroyed := [0%nat] |}),
                [Some (1%nat, c2)])) in Hrun3.
    injection Hrun3 as <- <-.
    destruct (slot_run_spec post _ Hinv3)
      as (st4 & rs4 & Hrun4 & _ & _ & _ & Hmono & _ & Hids4 & _).
    exists st4, rs4.
    change (Publish c1 :: Publish c2 :: Claim :: post)
      with ([Publish c1; Publish c2; Claim] ++ post).
    rewrite slot_run_app.
    change (slot_run [Publish c1; Publish c2; Claim] slot_start)
      with (Ok (({| m_NextRawSkeleton := None; m_RawSkeleton := Some 1%nat |},
                 {| live := delete 0%nat (<[1%nat := c2]> (<[0%nat := c1]> ∅));
                    created := 2; destroyed := [0%nat] |}),
                [Some (1%nat, c2)])).
    simpl obind. rewrite Hrun4. simpl.
    split_and!; [reflexivity| |].
    + intros Hin. apply elem_of_cons in Hin. destruct Hin as [Hin|Hin]; [discriminate|].
      apply Hids4 in Hin. simpl in Hin. destruct Hin as [[Hin|Hin] _]; [discriminate|lia].
    + apply Hmono. simpl. set_solver.
Qed.

Lemma slot_latest_wins_witness :
  exists st rs,
    slot_run [Publish Sample.snapshot35; Publish Sample.snapshot53; Claim; Claim;
              Publish Sample.snapshot_none; Claim] slot_start = Ok (st, rs) /\
    rs !! 0%nat = Some (Some (1%nat, Sample.snapshot53)) /\
    rs !! 1%nat = Some None /\
    rs !! 2%nat = Some (Some (2%nat, Sample.snapshot_none)) /\
    NoDup (claimed_ids rs) /\
    0%nat ∉ claimed_ids rs.
Proof.
  destruct slot_latest_wins as [Hgen _].
  destruct (Hgen [Publish Sample.snapshot35; Publish Sample.snapshot53; Claim; Claim;
                  Publish Sample.snapshot_none; Claim])
    as (st & rs & Hrun & Hclaim & Hnd & Hover).
  exists st, rs. split_and!.
  - exact Hrun.
  - exact (Hclaim [Publish Sample.snapshot35; Publish Sample.snapshot53]
                  [Claim; Publish Sample.snapshot_none; Claim] eq_refl).
  - exact (Hclaim [Publish Sample.snapshot35; Publish Sample.snapshot53; Claim]
                  [Publish Sample.snapshot_none; Claim] eq_refl).
  - exact (Hclaim [Publish Sample.snapshot35; Publish Sample.snapshot53; Claim; Claim;
                   Publish Sample.snapshot_none] [] eq_refl).
  - exact Hnd.
  - exact (Hover [] Sample.snapshot35 Sample.snapshot53
                 [Claim; Claim; Publish Sample.snapshot_none; Claim] eq_refl).
Defined.

(** * Ownership at destruction *)

(** C2. The destructor only clears [s_Instance]: the heap is left as it
    is, and afterwards a callback or a poll creates and destroys
    nothing. After [bridge_create], one callback and the destruction of
    the bridge, the snapshot that the callback created is still live and
    the log of destroyed snapshots is empty: that snapshot is destroyed
    zero times. *)
Theorem dtor_leaves_snapshots :
  (forall w : Process,
     s_Instance (Bridge_dtor w) = None /\
     heap (Bridge_dtor w) = heap w /\
     (forall sdk p,
        OnRawSkeletonStreamCallback sdk p (Bridge_dtor w) = Ok (Bridge_dtor w)) /\
     (forall sdk buffer buffer_size count,
        poll sdk (Bridge_dtor w) buffer buffer_size count
        = Ok {| pr_process := Bridge_dtor w; pr_buffer := buffer;
                pr_count := count; pr_status := -1 |})) /\
  (forall (sdk : StreamSDK) (p : SkeletonStreamInfo),
     exists w2,
       OnRawSkeletonStreamCallback sdk p (bridge_create true process_start) = Ok w2 /\
       s_Instance (Bridge_dtor w2) = None /\
       created (heap (Bridge_dtor w2)) = 1%nat /\
       live (heap (Bridge_dtor w2)) !! 0%nat = Some (assemble sdk p) /\
       destroyed (heap (Bridge_dtor w2)) = []).
Proof.
  split.
  - intros w. repeat split.
  - intros sdk p. eexists. split; [reflexivity|]. simpl.
    repeat split.
Qed.

(** Until then nothing is lost and nothing is destroyed twice: after any
    run of publications and claims every snapshot created is either
    destroyed, once, or still pointed at by the bridge. *)
Lemma slot_run_accounting ops :
  exists st rs,
    slot_run ops slot_start = Ok (st, rs) /\
    created (snd st) = count_publishes ops /\
    NoDup (destroyed (snd st)) /\
    (forall p, (p < count_publishes ops)%nat ->
       ((p ∈ destroyed (snd st)) /\ live (snd st) !! p = None) \/
       ((p ∉ destroyed (snd st)) /\ is_Some (live (snd st) !! p) /\ (p ∈ held (fst st)))).
Proof.
  destruct (slot_run_spec ops slot_start slot_inv_start)
    as (st & rs & Hrun & [Hnd Hlive Hacc] & Hcr & _).
  exists st, rs. simpl in Hcr. split_and!; try assumption.
  - apply NoDup_app in Hnd. tauto.
  - intros p Hp. rewrite <- Hcr in Hp. apply Hacc in Hp.
    apply NoDup_app in Hnd. destruct Hnd as (_ & Hdisj & _).
    apply elem_of_app in Hp. destruct Hp as [Hp|Hp].
    + right. split_and!; [now apply Hdisj|now apply Hlive|exact Hp].
    + left. split; [exact Hp|].
      destruct (live (snd st) !! p) eqn:E; [|reflexivity].
      exfalso. assert (Hh : p ∈ held (fst st)) by (apply Hlive; eauto).
      now apply (Hdisj p Hh).
Qed.

(** * Frame assembly *)

Lemma assemble_loop_spec sdk t r : forall i v,
  (i + r <= length v)%nat ->
  assemble_loop sdk t r i v =
  take i v ++ map (assemble_skeleton sdk t) (seq i r) ++ drop (i + r) v.
Proof.
  induction r as [|r IH]; intros i v Hlen; simpl.
  - now rewrite Nat.add_0_r, take_drop.
  - rewrite IH by (rewrite length_insert; lia).
    rewrite (take_S_r _ _ (assemble_skeleton sdk t i))
      by (apply list_lookup_insert_eq; lia).
    rewrite take_insert_ge by lia.
    rewrite drop_insert_lt by lia.
    rewrite <- app_assoc. simpl.
    now replace (i + S r)%nat with (S (i + r)) by lia.
Qed.

Lemma assemble_skeletons sdk p :
  skeletons (assemble sdk p) =
  map (assemble_skeleton sdk (si_publishTime p))
      (seq 0 (Z.to_nat (U32.wrap (skeletonsCount p)))).
Proof.
  unfold assemble. simpl.
  rewrite assemble_loop_spec by (rewrite length_replicate; lia).
  rewrite take_0, drop_ge by (rewrite length_replicate; lia).
  now rewrite app_nil_r.
Qed.

Lemma assemble_skeleton_wf sdk t i : skeleton_wf (assemble_skeleton sdk t i).
Proof.
  unfold assemble_skeleton.
  destruct (CoreSdk_GetRawSkeletonInfo sdk i) as [rc raw]. simpl.
  destruct (CoreSdk_GetRawSkeletonData sdk i (U32.wrap (nodesCount raw))) as [rc' data].
  pose proof (wrap_in_range (nodesCount raw)) as Hr.
  split; simpl; [exact Hr|].
  rewrite length_map, length_seq. destruct Hr. lia.
Qed.

(** The callback only builds well-formed snapshots. *)
Lemma assemble_wf sdk p : snapshot_wf (assemble sdk p).
Proof.
  unfold snapshot_wf. rewrite assemble_skeletons. split.
  - rewrite length_map, length_seq.
    pose proof (wrap_in_range (skeletonsCount p)) as [? ?]. lia.
  - apply Forall_forall. intros sk Hin. apply list_elem_of_fmap in Hin.
    destruct Hin as (i & -> & _). apply assemble_skeleton_wf.
Qed.

(** C5, as the code has it. The callback does not look at the return
    codes of the two fetches: every index below [skeletonsCount] gets
    its entry in the frame, in order, built from what the two calls left
    in their output arguments, with a node vector of the length of the
    stored node count; and two SDKs that leave the same outputs give the
    same frame, whatever codes they return. *)
Theorem assemble_ignores_return_codes (sdk : StreamSDK) (p : SkeletonStreamInfo) :
  skeletons (assemble sdk p) =
    map (assemble_skeleton sdk (si_publishTime p))
        (seq 0 (Z.to_nat (U32.wrap (skeletonsCount p)))) /\
  Z.of_nat (length (skeletons (assemble sdk p))) = U32.wrap (skeletonsCount p) /\
  snapshot_wf (assemble sdk p) /\
  forall sdk' : StreamSDK,
    (forall i, snd (CoreSdk_GetRawSkeletonInfo sdk' i)
               = snd (CoreSdk_GetRawSkeletonInfo sdk i)) ->
    (forall i n k, snd (CoreSdk_GetRawSkeletonData sdk' i n) k
                   = snd (CoreSdk_GetRawSkeletonData sdk i n) k) ->
    assemble sdk' p = assemble sdk p.
Proof.
  split_and!.
  - apply assemble_skeletons.
  - rewrite assemble_skeletons, length_map, length_seq.
    pose proof (wrap_in_range (skeletonsCount p)) as [? ?]. lia.
  - apply assemble_wf.
  - intros sdk' Hinfo Hdata.
    assert (H : skeletons (assemble sdk' p) = skeletons (assemble sdk p)).
    { rewrite !assemble_skeletons. apply map_ext. intros i.
      unfold assemble_skeleton.
      specialize (Hinfo i).
      destruct (CoreSdk_GetRawSkeletonInfo sdk' i) as [rc' raw'].
      destruct (CoreSdk_GetRawSkeletonInfo sdk i) as [rc raw].
      simpl in Hinfo. subst raw'. simpl.
      specialize (Hdata i (U32.wrap (nodesCount raw))).
      destruct (CoreSdk_GetRawSkeletonData sdk' i _) as [rd' data'].
      destruct (CoreSdk_GetRawSkeletonData sdk i _) as [rd data].
      simpl in Hdata. f_equal. apply map_ext. intros k. apply Hdata. }
    destruct (assemble sdk' p), (assemble sdk p). simpl in H. now subst.
Qed.

Lemma assemble_ignores_return_codes_witness :
  skeletons (assemble Sample.stream_failing Sample.one_skeleton) =
    [assemble_skeleton Sample.stream_failing 42 0] /\
  snapshot_wf (assemble Sample.stream_failing Sample.one_skeleton) /\
  assemble Sample.stream_ok Sample.one_skeleton
  = assemble Sample.stream_failing Sample.one_skeleton.
Proof.
  destruct (assemble_ignores_return_codes Sample.stream_failing Sample.one_skeleton)
    as (Hsk & _ & Hwf & Hsame).
  split_and!.
  - exact Hsk.
  - exact Hwf.
  - apply Hsame; reflexivity.
Defined.

(** The frame assembled from one skeleton whose two fetches fail holds
    that skeleton all the same: the claim that a failed skeleton is left
    out does not hold of the code. *)
Lemma assemble_keeps_failed_skeleton :
  fetch_ok Sample.stream_failing 0 = false /\
  length (skeletons (assemble Sample.stream_failing Sample.one_skeleton)) = 1%nat /\
  ~ failed_fetches_left_out Sample.stream_failing Sample.one_skeleton.
Proof.
  split_and!; [reflexivity|reflexivity|].
  unfold failed_fetches_left_out. vm_compute. discriminate.
Qed.

(** * The entry point [poll] *)

Lemma claim_inv b h b' h' :
  claim b h = Ok (b', h') ->
  heap_delete (m_RawSkeleton b) h = Ok h' /\
  b' = {| m_NextRawSkeleton := None; m_RawSkeleton := m_NextRawSkeleton b |}.
Proof.
  unfold claim. destruct (heap_delete (m_RawSkeleton b) h) as [h1|]; [|discriminate].
  simpl. intros [= <- <-]. now split.
Qed.

Lemma Poll_drained sdk b h buf C b' h' buf' n :
  Poll sdk b h buf C = Ok (b', h', buf', n) -> drained b' h'.
Proof.
  intros H. apply Poll_inv in H. destruct H as [Hc H].
  apply claim_inv in Hc. destruct Hc as [_ ->].
  split; [reflexivity|]. simpl in *.
  intros p Hp. destruct H as [(Hn & _)|(q & c & Hq & Hl & _)].
  - congruence.
  - rewrite Hp in Hq. injection Hq as <-. eauto.
Qed.

(** A poll with nothing pending writes nothing and reports zero. *)
Lemma Poll_nothing_pending sdk b h buf C :
  m_NextRawSkeleton b = None ->
  (forall p, m_RawSkeleton b = Some p -> is_Some (live h !! p)) ->
  exists h',
    heap_delete (m_RawSkeleton b) h = Ok h' /\
    Poll sdk b h buf C
    = Ok ({| m_NextRawSkeleton := None; m_RawSkeleton := None |}, h', buf, 0).
Proof.
  intros Hn Hr. unfold Poll, claim. rewrite Hn.
  destruct (m_RawSkeleton b) as [q|]; simpl.
  - destruct (Hr q eq_refl) as [c Hc]. rewrite Hc. simpl. eauto.
  - eauto.
Qed.

(** What a completed call of [poll] with non-null arguments on an
    initialised bridge has done. *)
Lemma poll_inv sdk w b (buffer : buffer_t) buffer_size count r :
  s_Instance w = Some b ->
  poll sdk w (Some buffer) buffer_size (Some count) = Ok r ->
  exists b' h' buffer' written,
    Poll sdk b (heap w) buffer buffer_size = Ok (b', h', buffer', written) /\
    r = {| pr_process := {| s_Instance := Some b'; heap := h' |};
           pr_buffer := Some buffer';
           pr_count := Some written;
           pr_status := if written =? 0 then -2 else 0 |}.
Proof.
  intros Hw H. unfold poll in H. rewrite Hw in H.
  destruct (Poll sdk b (heap w) buffer buffer_size) as [[[[b' h'] buf'] n]|];
    [|discriminate].
  simpl in H. injection H as <-. exists b', h', buf', n. now split.
Qed.

(** C6, as the code has it. On an initialised bridge and with non-null
    arguments, [poll] completes exactly when [Bridge::Poll] does; it
    stores the written count into [*count], and returns -2 when that
    count is zero and 0 when it is not. In particular it returns -2
    whenever nothing is pending, also when a snapshot is retained from
    an earlier poll (which the call destroys). *)
Theorem poll_status (sdk : NodeInfoLookup) (w : Process) (b : Bridge)
    (buffer : buffer_t) (buffer_size count : Z) :
  s_Instance w = Some b ->
  (forall r, poll sdk w (Some buffer) buffer_size (Some count) = Ok r ->
     exists b' h' buffer' written,
       Poll sdk b (heap w) buffer buffer_size = Ok (b', h', buffer', written) /\
       pr_process r = {| s_Instance := Some b'; heap := h' |} /\
       pr_buffer r = Some buffer' /\
       pr_count r = Some written /\
       (pr_status r = -2 <-> written = 0) /\
       (pr_status r = 0 <-> written <> 0)) /\
  (forall b' h' buffer' written,
     Poll sdk b (heap w) buffer buffer_size = Ok (b', h', buffer', written) ->
     poll sdk w (Some buffer) buffer_size (Some count)
     = Ok {| pr_process := {| s_Instance := Some b'; heap := h' |};
             pr_buffer := Some buffer';
             pr_count := Some written;
             pr_status := if written =? 0 then -2 else 0 |}) /\
  (m_NextRawSkeleton b = None ->
   (forall p, m_RawSkeleton b = Some p -> is_Some (live (heap w) !! p)) ->
   exists h',
     heap_delete (m_RawSkeleton b) (heap w) = Ok h' /\
     poll sdk w (Some buffer) buffer_size (Some count)
     = Ok {| pr_process :=
               {| s_Instance := Some {| m_NextRawSkeleton := None; m_RawSkeleton := None |};
                  heap := h' |};
             pr_buffer := Some buffer;
             pr_count := Some 0;
             pr_status := -2 |}).
Proof.
  intros Hw. split_and!.
  - intros r H.
    destruct (poll_inv _ _ _ _ _ _ _ Hw H) as (b' & h' & buf' & n & HP & ->).
    exists b', h', buf', n. simpl.
    split_and!; try reflexivity; try assumption.
    + destruct (Z.eqb_spec n 0); split; intros; try lia; try reflexivity.
    + destruct (Z.eqb_spec n 0); split; intros; try lia; try reflexivity.
  - intros b' h' buf' n H. unfold poll. rewrite Hw, H. reflexivity.
  - intros Hn Hr.
    destruct (Poll_nothing_pending sdk b (heap w) buffer buffer_size Hn Hr) as (h' & Hd & HP).
    exists h'. split; [exact Hd|]. unfold poll. rewrite Hw, HP. reflexivity.
Qed.

Lemma poll_status_witness :
  poll Sample.sdk_ok (Sample.process_pending Sample.snapshot35)
       (Some (Sample.blank 10)) 10 (Some 99)
  = Ok {| pr_process := Sample.process_retained Sample.snapshot35;
          pr_buffer := Some (all_records (fun _ => Sample.node_info)
                               [Sample.sk3; Sample.sk5] 0 ++ drop 8 (Sample.blank 10));
          pr_count := Some 8;
          pr_status := 0 |} /\
  exists h',
    poll Sample.sdk_ok (Sample.process_retained Sample.snapshot35)
         (Some (Sample.blank 10)) 10 (Some 99)
    = Ok {| pr_process :=
              {| s_Instance := Some {| m_NextRawSkeleton := None; m_RawSkeleton := None |};
                 heap := h' |};
            pr_buffer := Some (Sample.blank 10);
            pr_count := Some 0;
            pr_status := -2 |}.
Proof.
  split.
  - destruct (poll_status Sample.sdk_ok (Sample.process_pending Sample.snapshot35) _
                (Sample.blank 10) 10 99 eq_refl) as (_ & H & _).
    exact (H _ _ _ 8 eq_refl).
  - destruct (poll_status Sample.sdk_ok (Sample.process_retained Sample.snapshot35) _
                (Sample.blank 10) 10 99 eq_refl) as (_ & _ & H).
    destruct H as (h' & _ & H); [reflexivity| |eauto].
    intros p [= <-]. simpl. eexists. reflexivity.
Defined.

(** On a bridge with a snapshot retained from an earlier poll and an
    empty slot, and on a bridge whose slot holds a snapshot of no
    skeleton, [poll] returns -2: the status is not -2 exactly when
    nothing is held. *)
Lemma poll_no_data_while_holding :
  (exists r,
     poll Sample.sdk_ok (Sample.process_retained Sample.snapshot35)
          (Some (Sample.blank 10)) 10 (Some 99) = Ok r /\
     pr_status r = -2 /\
     ~ no_data_iff_nothing_held
         {| m_NextRawSkeleton := None; m_RawSkeleton := Some 0%nat |} r) /\
  (exists r,
     poll Sample.sdk_ok (Sample.process_pending Sample.snapshot_none)
          (Some (Sample.blank 10)) 10 (Some 99) = Ok r /\
     pr_status r = -2 /\
     ~ no_data_iff_nothing_held
         {| m_NextRawSkeleton := Some 0%nat; m_RawSkeleton := None |} r).
Proof.
  split; eexists; (split; [reflexivity|]); (split; [reflexivity|]);
    intros [[H _] _]; simpl in H; destruct (H eq_refl) as [? ?]; discriminate.
Qed.

(** Polls on a bridge that has nothing pending all report nothing. *)
Lemma poll_repeat_drained calls : forall w b,
  s_Instance w = Some b ->
  drained b (heap w) ->
  exists w' rs,
    poll_repeat calls w = Ok (w', rs) /\
    Forall2 (fun call r =>
               pr_status r = -2 /\ pr_count r = Some 0 /\
               pr_buffer r = Some (pc_buffer call))
            calls rs.
Proof.
  induction calls as [|call calls IH]; intros w b Hw [Hn Hr].
  - exists w, []. split; [reflexivity|constructor].
  - destruct (Poll_nothing_pending (pc_sdk call) b (heap w) (pc_buffer call)
                (pc_buffer_size call) Hn Hr) as (h' & _ & HP).
    simpl. unfold poll. rewrite Hw, HP. simpl.
    destruct (IH {| s_Instance := Some {| m_NextRawSkeleton := None;
                                          m_RawSkeleton := None |};
                    heap := h' |} _ eq_refl) as (w' & rs & Hrun & Hall).
    { split; [reflexivity|discriminate]. }
    rewrite Hrun. simpl. eexists _, _. split; [reflexivity|].
    constructor; [|exact Hall]. now repeat split.
Qed.

(** C8. Once a poll on an initialised bridge has completed, every
    further poll with no publication in between returns -2, stores 0
    into [*count] and leaves its buffer as it was. *)
Theorem polls_without_publish (first : poll_call) (calls : list poll_call)
    (w : Process) (b : Bridge) (r0 : poll_result) :
  s_Instance w = Some b ->
  poll (pc_sdk first) w (Some (pc_buffer first)) (pc_buffer_size first)
       (Some (pc_count first)) = Ok r0 ->
  exists w' rs,
    poll_repeat calls (pr_process r0) = Ok (w', rs) /\
    Forall2 (fun call r =>
               pr_status r = -2 /\ pr_count r = Some 0 /\
               pr_buffer r = Some (pc_buffer call))
            calls rs.
Proof.
  intros Hw H0.
  destruct (poll_inv _ _ _ _ _ _ _ Hw H0) as (b' & h' & buf' & n & HP & ->).
  apply Poll_drained in HP. simpl.
  now apply (poll_repeat_drained calls _ b').
Qed.

Lemma polls_without_publish_witness :
  exists r0 w' r1 r2,
    poll Sample.sdk_ok (Sample.process_pending Sample.snapshot35)
         (Some (Sample.blank 10)) 10 (Some 99) = Ok r0 /\
    pr_status r0 = 0 /\ pr_count r0 = Some 8 /\
    poll_repeat
      [ {| pc_sdk := Sample.sdk_ok; pc_buffer := Sample.blank 10;
           pc_buffer_size := 10; pc_count := 8 |};
        {| pc_sdk := Sample.sdk_ok; pc_buffer := Sample.blank 4;
           pc_buffer_size := 4; pc_count := 0 |} ]
      (pr_process r0) = Ok (w', [r1; r2]) /\
    (pr_status r1 = -2 /\ pr_count r1 = Some 0 /\ pr_buffer r1 = Some (Sample.blank 10)) /\
    (pr_status r2 = -2 /\ pr_count r2 = Some 0 /\ pr_buffer r2 = Some (Sample.blank 4)).
Proof.
  destruct (polls_without_publish
              {| pc_sdk := Sample.sdk_ok; pc_buffer := Sample.blank 10;
                 pc_buffer_size := 10; pc_count := 99 |}
              [ {| pc_sdk := Sample.sdk_ok; pc_buffer := Sample.blank 10;
                   pc_buffer_size := 10; pc_count := 8 |};
                {| pc_sdk := Sample.sdk_ok; pc_buffer := Sample.blank 4;
                   pc_buffer_size := 4; pc_count := 0 |} ]
              (Sample.process_pending Sample.snapshot35) _ _ eq_refl eq_refl)
    as (w' & rs & Hrun & Hall).
  destruct rs as [|r1 [|r2 [|r3 rs]]];
    try (exfalso; apply Forall2_length in Hall; discriminate).
  apply Forall2_cons_1 in Hall. destruct Hall as [H1 Hall].
  apply Forall2_cons_1 in Hall. destruct Hall as [H2 _].
  eexists _, w', r1, r2.
  split; [reflexivity|]. split; [reflexivity|]. split; [reflexivity|].
  split; [exact Hrun|]. split; [exact H1|exact H2].
Defined.

(** C9, as the code has it. A call of [poll] with a null [buffer] or a
    null [count] changes nothing, neither the process nor what the
    arguments point at, and returns -3 when a bridge exists and -1 when
    none does. *)
Theorem poll_null_arguments (sdk : NodeInfoLookup) (w : Process)
    (buffer : option buffer_t) (buffer_size : Z) (count : option Z) :
  buffer = None \/ count = None ->
  poll sdk w buffer buffer_size count
  = Ok {| pr_process := w;
          pr_buffer := buffer;
          pr_count := count;
          pr_status := match s_Instance w with Some _ => -3 | None => -1 end |}.
Proof.
  intros H. unfold poll.
  destruct (s_Instance w) as [b|]; [|reflexivity].
  destruct H as [-> | ->]; [reflexivity|].
  destruct buffer; reflexivity.
Qed.

Lemma poll_null_arguments_witness :
  poll Sample.sdk_ok (Sample.process_pending Sample.snapshot35) None 10 (Some 99)
  = Ok {| pr_process := Sample.process_pending Sample.snapshot35;
          pr_buffer := None; pr_count := Some 99; pr_status := -3 |} /\
  poll Sample.sdk_ok (Sample.process_pending Sample.snapshot35)
       (Some (Sample.blank 10)) 10 None
  = Ok {| pr_process := Sample.process_pending Sample.snapshot35;
          pr_buffer := Some (Sample.blank 10); pr_count := None; pr_status := -3 |}.
Proof.
  split.
  - exact (poll_null_arguments Sample.sdk_ok (Sample.process_pending Sample.snapshot35)
             None 10 (Some 99) (or_introl eq_refl)).
  - exact (poll_null_arguments Sample.sdk_ok (Sample.process_pending Sample.snapshot35)
             (Some (Sample.blank 10)) 10 None (or_intror eq_refl)).
Defined.

(** Before [bridge_create], [poll] with a null buffer returns -1, not -3. *)
Lemma poll_null_buffer_before_create :
  exists r,
    poll Sample.sdk_ok process_start None 10 (Some 99) = Ok r /\
    pr_status r = -1 /\ pr_status r <> -3.
Proof. eexists. split; [reflexivity|]. split; [reflexivity|discriminate]. Qed.

(** * The slot operations inside the callback and the poll *)

(** The callback publishes the frame it has assembled. *)
Lemma callback_publishes sdk p w b :
  s_Instance w = Some b ->
  OnRawSkeletonStreamCallback sdk p w =
  obind (slot_publish (assemble sdk p) (b, heap w))
        (fun st => Ok {| s_Instance := Some (fst st); heap := snd st |}).
Proof.
  intros Hw. unfold OnRawSkeletonStreamCallback, slot_publish. rewrite Hw. simpl.
  destruct (publish _ _ _) as [[b' h']|]; reflexivity.
Qed.

(** A poll that completes has made the claim of the slot, and what it
    flattens is what the claim returned. *)
Lemma Poll_claims sdk b h (buffer : buffer_t) buffer_size b' h' buffer' count :
  Poll sdk b h buffer buffer_size = Ok (b', h', buffer', count) ->
  exists r,
    slot_claim (b, h) = Ok (b', h', r) /\
    match r with
    | None => buffer' = buffer /\ count = 0
    | Some (_, c) => flatten sdk c buffer_size buffer = Ok (buffer', count)
    end.
Proof.
  intros H. apply Poll_inv in H. destruct H as [Hc H].
  unfold slot_claim. simpl. rewrite Hc. simpl.
  destruct H as [(Hn & -> & ->)|(p & c & Hp & Hl & Hf)].
  - rewrite Hn. exists None. now split.
  - rewrite Hp. unfold heap_deref. rewrite Hl. simpl.
    exists (Some (p, c)). now split.
Qed.

(** * Completion, and the limit of the capacity check *)

(** On a bridge that obeys the ownership discipline, a poll completes
    whenever the pending snapshot, if there is one, is well formed and
    has fewer than [2^32] nodes in all, and the buffer has the entries
    that [buffer_size] declares. *)
Lemma Poll_completes sdk b h (buffer : buffer_t) buffer_size :
  slot_inv (b, h) ->
  (forall p c, slot_pending (b, h) = Some (p, c) ->
     snapshot_wf c /\ total_nodes (skeletons c) < U32.modulus) ->
  U32.in_range buffer_size ->
  buffer_size <= Z.of_nat (length buffer) ->
  exists b' h' buffer' count,
    Poll sdk b h buffer buffer_size = Ok (b', h', buffer', count).
Proof.
  intros Hinv Hwf HC HL.
  destruct (slot_claim_spec (b, h) Hinv) as (b1 & h1 & Hc & _).
  unfold slot_claim in Hc. simpl fst in Hc. simpl snd in Hc.
  unfold Poll.
  destruct (claim b h) as [[b2 h2]|]; [|discriminate]. simpl in Hc |- *.
  destruct (m_RawSkeleton b2) as [p|]; [|eauto].
  destruct (heap_deref p h2) as [c|]; [|discriminate]. simpl in Hc |- *.
  injection Hc as _ _ Hp. symmetry in Hp.
  destruct (Hwf p c Hp) as [Hc1 Hc2].
  destruct (length (skeletons c) =? 0)%nat; [eauto|].
  destruct (flatten_completes sdk c buffer_size buffer Hc1 HC HL Hc2) as (buf' & n & ->).
  simpl. eauto.
Qed.


Lemma skeleton_loop_cons sdk sk rest i C (buf : buffer_t) bi :
  skeleton_loop sdk (sk :: rest) i C buf bi =
  if C <? U32.add bi (nodesCount (info sk)) then Ok (buf, bi)
  else match sdk i (gloveId (info sk)) (nodesCount (info sk)) with
       | None => skeleton_loop sdk rest (S i) C buf bi
       | Some node_info =>
           obind (node_loop (gloveId (info sk)) node_info (nodes sk)
                    (Z.to_nat (nodesCount (info sk))) 0 buf bi)
                 (fun r => skeleton_loop sdk rest (S i) C (fst r) (snd r))
       end.
Proof.
  simpl. destruct (C <? _); [reflexivity|].
  destruct (sdk i _ _); [|reflexivity].
  destruct (node_loop _ _ _ _ _ _ _) as [[? ?]|]; reflexivity.
Qed.

(** The sum at line 217 is a 32-bit sum. When a skeleton of one node has
    been written and the next one declares [2^32 - 1] nodes, the sum
    wraps to [0], the check passes whatever the capacity, and the inner
    loop stores past the end of a buffer of [buffer_size] entries: the
    poll has undefined behaviour. The bound [total_nodes < 2^32] of
    [flatten_completes] is what excludes this. *)
Lemma flatten_wrap_UB (sdk : NodeInfoLookup) (sk1 big : ClientRawSkeleton)
    (ni1 ni2 : nat -> NodeInfo) (buffer : buffer_t) :
  skeleton_wf sk1 -> skeleton_wf big ->
  nodesCount (info sk1) = 1 ->
  nodesCount (info big) = U32.modulus - 1 ->
  sdk 0%nat (gloveId (info sk1)) 1 = Some ni1 ->
  sdk 1%nat (gloveId (info big)) (U32.modulus - 1) = Some ni2 ->
  length buffer = 4%nat ->
  flatten sdk {| skeletons := [sk1; big] |} 4 buffer = UB.
Proof.
  intros Hwf1 Hwf2 H1 H2 Hs1 Hs2 HL.
  rewrite flatten_wf by (simpl; rewrite modulus_eq; lia). simpl skeletons.
  rewrite skeleton_loop_cons, H1.
  rewrite add_small by in_range_tac.
  change (4 <? 0 + 1) with false. cbv iota. rewrite Hs1.
  destruct Hwf1 as [_ Hlen1]. rewrite H1 in Hlen1.
  rewrite node_loop_complete; rewrite ?drop_0, ?modulus_eq; try lia.
  cbn [obind fst snd].
  rewrite skeleton_loop_cons, H2.
  replace (U32.add (0 + Z.of_nat (Z.to_nat 1)) (U32.modulus - 1)) with 0.
  2:{ unfold U32.add, U32.wrap. rewrite modulus_eq. reflexivity. }
  change (4 <? 0) with false. cbv iota. rewrite Hs2.
  destruct (node_loop _ _ _ _ _ _ _) as [[buf2 b2]|] eqn:Hn; [|reflexivity].
  exfalso. apply node_loop_in_bounds in Hn.
  - destruct Hn as [_ Hn]. revert Hn.
    rewrite !length_app, length_take, length_drop, node_records_length, length_take.
    rewrite HL, modulus_eq. lia.
  - rewrite !length_app, length_take, length_drop, node_records_length, length_take.
    rewrite HL. lia.
  - rewrite !length_app, length_take, length_drop, node_records_length, length_take.
    rewrite HL, modulus_eq. lia.
Qed.

(** * The lifecycle functions *)

(** ** [shutdown] *)

(** X1. [shutdown] returns 0 exactly when a bridge exists, the SDK shut
    down and the platform layer shut down; otherwise it returns -1,
    without telling which of the three failed. Without a bridge it calls
    nothing; when the SDK fails to shut down the platform shutdown is
    not called. *)
Theorem shutdown_status (env : ShutdownEnv) (w : Process) :
  exists status calls,
    shutdown env w = Ok (status, calls) /\
    (status = 0 \/ status = -1) /\
    (status = 0 <->
       is_Some (s_Instance w) /\
       is_success (env_CoreSdk_ShutDown env) = true /\
       env_PlatformSpecificShutdown env = true) /\
    calls =
      match s_Instance w with
      | None => []
      | Some _ =>
          if is_success (env_CoreSdk_ShutDown env)
          then [Ev_CoreSdk_ShutDown; Ev_PlatformSpecificShutdown]
          else [Ev_CoreSdk_ShutDown]
      end.
Proof.
  unfold shutdown, ShutDown, ask, eret, ebind.
  destruct (s_Instance w) as [b|]; simpl.
  - destruct (env_CoreSdk_ShutDown env) as [|code]; simpl.
    + destruct (env_PlatformSpecificShutdown env); simpl;
        eexists _, _; (split; [reflexivity|]); split_and!; eauto;
        split; try (intros (_ & _ & ?)); try intros ?; try discriminate; eauto.
    + eexists _, _. split; [reflexivity|]. split_and!; eauto.
      split; [discriminate|]. intros (_ & ? & _). discriminate.
  - eexists _, _. split; [reflexivity|]. split_and!; eauto.
    split; [discriminate|]. intros ([? ?] & _). discriminate.
Qed.

(** ** [InitializeSDK] *)

(** X2. [InitializeSDK] leaves the connection type at remote and returns
    success or [FailedToInitialize], nothing else. It initialises the
    core, then registers the stream callback, then asks for the z-up,
    x-from-viewer, right-handed, metre-scaled world coordinate system,
    and stops at the first of the three that fails: a step is only made
    when the ones before it succeeded. *)
Theorem InitializeSDK_steps (env : InitEnv) :
  exists code calls,
    InitializeSDK env = Ok ((code, ConnectionType_Remote), calls) /\
    (code = ClientReturnCode_Success \/ code = ClientReturnCode_FailedToInitialize) /\
    (code = ClientReturnCode_Success <->
       is_success (env_CoreSdk_InitializeCore env) = true /\
       is_success (env_CoreSdk_RegisterCallbackForRawSkeletonStream env) = true /\
       is_success (env_CoreSdk_InitializeCoordinateSystemWithVUH env) = true) /\
    (Ev_CoreSdk_RegisterCallbackForRawSkeletonStream ∈ calls <->
       is_success (env_CoreSdk_InitializeCore env) = true) /\
    (forall vuh world,
       Ev_CoreSdk_InitializeCoordinateSystemWithVUH vuh world ∈ calls <->
       vuh = t_VUH /\ world = true /\
       is_success (env_CoreSdk_InitializeCore env) = true /\
       is_success (env_CoreSdk_RegisterCallbackForRawSkeletonStream env) = true) /\
    (code = ClientReturnCode_Success ->
       calls = [Ev_CoreSdk_InitializeCore;
                Ev_CoreSdk_RegisterCallbackForRawSkeletonStream;
                Ev_CoordinateSystemVUH_Init;
                Ev_CoreSdk_InitializeCoordinateSystemWithVUH t_VUH true]).
Proof.
  unfold InitializeSDK, RegisterAllCallbacks, ask, eret, ebind.
  destruct (env_CoreSdk_InitializeCore env) as [|c1]; simpl;
    [destruct (env_CoreSdk_RegisterCallbackForRawSkeletonStream env) as [|c2]; simpl;
       [destruct (env_CoreSdk_InitializeCoordinateSystemWithVUH env) as [|c3]; simpl|]|];
    eexists _, _; (split; [reflexivity|]); split_and!; eauto;
    try (intros; split; intros; set_solver);
    try discriminate;
    try (split; [discriminate|intros (? & ? & ?); discriminate]).
Qed.

(** ** [Connect] *)

Lemma print_hosts_spec hosts r : forall i,
  (r <= length (drop i hosts))%nat ->
  print_hosts hosts r i = Ok (tt, host_lines (take r (drop i hosts)) i).
Proof.
  induction r as [|r IH]; intros i Hr; simpl.
  - reflexivity.
  - destruct (hosts !! i) as [h|] eqn:Hi.
    2:{ apply lookup_ge_None in Hi. rewrite length_drop in Hr. lia. }
    rewrite (drop_S _ _ _ Hi) in Hr |- *. simpl in Hr.
    unfold ebind, ask. rewrite IH by lia. reflexivity.
Qed.

Lemma found_hosts_length env :
  length (found_hosts env)
  = Z.to_nat (U32.wrap (snd (env_CoreSdk_GetNumberOfAvailableHostsFound env))).
Proof. unfold found_hosts. now rewrite length_map, length_seq. Qed.

(** The three ways in which [Connect] ends. *)
Lemma Connect_cases nc ct env :
  (discovery_ok env = false /\
   exists calls,
     Connect nc ct env = Ok (ClientReturnCode_FailedToFindHosts, calls) /\
     calls <> [] /\
     calls `prefix_of` discovery_calls ct env) \/
  (discovery_ok env = true /\ chosen_host ct env = None /\
   asks_user ct env = true /\
   Connect nc ct env =
   Ok (ClientReturnCode_FailedToConnect, discovery_calls ct env ++ selection_calls env)) \/
  (discovery_ok env = true /\
   exists k host,
     chosen_host ct env = Some k /\
     found_hosts env !! k = Some host /\
     Connect nc ct env =
     Ok (if is_not_connected nc (env_CoreSdk_ConnectToHost env host)
         then ClientReturnCode_FailedToConnect else ClientReturnCode_Success,
         discovery_calls ct env
           ++ (if asks_user ct env then selection_calls env else [])
           ++ [Ev_CoreSdk_ConnectToHost host])).
Proof.
  pose proof (found_hosts_length env) as Hlen.
  set (R := Connect nc ct env). assert (HR : R = Connect nc ct env) by reflexivity.
  clearbody R.
  unfold Connect in HR.
  unfold discovery_ok, chosen_host, asks_user, discovery_calls, selection_calls,
    found_hosts in *.
  destruct (env_CoreSdk_LookForHosts env) as [|c1]; simpl in HR |- *.
  2:{ left. split; [reflexivity|]. eexists. split; [exact HR|]. split; [subst R; discriminate|].
      now exists [Ev_CoreSdk_GetNumberOfAvailableHostsFound;
                  Ev_CoreSdk_GetAvailableHostsFound
                    (U32.wrap (env_CoreSdk_GetNumberOfAvailableHostsFound env).2)]. }
  destruct (env_CoreSdk_GetNumberOfAvailableHostsFound env) as [rc2 found]; simpl in *.
  set (n := U32.wrap found) in *.
  pose proof (wrap_in_range found) as Hn. fold n in Hn. destruct Hn as [Hn0 Hn1].
  destruct rc2 as [|c2]; simpl in HR |- *.
  2:{ left. split; [reflexivity|]. eexists. split; [exact HR|]. split; [subst R; discriminate|].
      now exists [Ev_CoreSdk_GetAvailableHostsFound n]. }
  destruct (Z.eqb_spec n 0) as [Hz|Hz]; simpl in HR |- *.
  { left. split; [reflexivity|]. eexists. split; [exact HR|]. split; [subst R; discriminate|].
    now exists [Ev_CoreSdk_GetAvailableHostsFound n]. }
  destruct (env_CoreSdk_GetAvailableHostsFound env) as [rc3 written]; simpl in *.
  destruct rc3 as [|c3]; simpl in HR |- *.
  2:{ left. split; [reflexivity|]. eexists. split; [exact HR|]. split; [subst R; discriminate|]. now exists []. }
  set (hosts := map written (seq 0 (Z.to_nat n))) in *.
  assert (Hfirst : exists h0, hosts !! 0%nat = Some h0).
  { apply lookup_lt_is_Some. lia. }
  destruct (negb (ConnectionType_eqb ct ConnectionType_Local) && (1 <? n)) eqn:Hask;
    simpl in HR |- *.
  - rewrite print_hosts_spec in HR by (rewrite drop_0; lia).
    rewrite drop_0, firstn_all2 in HR by lia. simpl in HR.
    set (input := U32.wrap (env_cin env)) in *.
    pose proof (wrap_in_range (env_cin env)) as Hi. fold input in Hi. destruct Hi as [Hi0 Hi1].
    destruct (Z.leb_spec input 0) as [Hle|Hgt]; simpl in HR.
    { right; left. split_and!; try reflexivity; [|exact HR].
      destruct (Z.leb_spec 1 input); [lia|reflexivity]. }
    destruct (Z.ltb_spec n input) as [Hbig|Hok]; simpl in HR.
    { right; left. split_and!; try reflexivity; [|exact HR].
      destruct (Z.leb_spec 1 input); [|reflexivity].
      destruct (Z.leb_spec input n); [lia|reflexivity]. }
    right; right. split; [reflexivity|].
    destruct (Z.leb_spec 1 input); [|lia].
    destruct (Z.leb_spec input n); [|lia]. simpl.
    assert (Hk : exists h, hosts !! Z.to_nat (input - 1) = Some h).
    { apply lookup_lt_is_Some. lia. }
    destruct Hk as [h Hk].
    exists (Z.to_nat (input - 1)), h. split_and!; try reflexivity; try assumption.
    unfold connect_to in HR. rewrite wrap_small in HR by (unfold U32.in_range; lia).
    rewrite Hk in HR. simpl in HR. rewrite HR.
    destruct (is_not_connected nc _); simpl; rewrite <- ?app_assoc; reflexivity.
  - right; right. split; [reflexivity|].
    destruct Hfirst as [h0 H0].
    exists 0%nat, h0. split_and!; try reflexivity; try assumption.
    unfold connect_to in HR. change (Z.to_nat 0) with 0%nat in HR.
    rewrite H0 in HR. simpl in HR.
    rewrite HR. destruct (is_not_connected nc _); reflexivity.
Qed.

Lemma host_lines_prints hosts : forall i e,
  e ∈ host_lines hosts i -> exists f a, e = Ev_print f a.
Proof.
  induction hosts as [|h hosts IH]; intros i e He; simpl in He.
  - now apply not_elem_of_nil in He.
  - apply elem_of_cons in He. destruct He as [->|He]; eauto.
Qed.

Lemma discovery_calls_prefix ct env calls e :
  calls `prefix_of` discovery_calls ct env -> e ∈ calls ->
  e ∈ discovery_calls ct env.
Proof. intros [k ->] He. apply elem_of_app. now left. Qed.

Lemma selection_calls_elem env e :
  e ∈ selection_calls env -> e = Ev_cin \/ exists f a, e = Ev_print f a.
Proof.
  unfold selection_calls. intros He.
  apply elem_of_cons in He. destruct He as [->|He]; [eauto|].
  apply elem_of_app in He. destruct He as [He|He].
  - right. eapply host_lines_prints; eauto.
  - left. now apply list_elem_of_singleton in He.
Qed.

Lemma chosen_host_asked ct env k :
  asks_user ct env = true -> chosen_host ct env = Some k ->
  Z.of_nat k = U32.wrap (env_cin env) - 1 /\
  1 <= U32.wrap (env_cin env)
    <= U32.wrap (snd (env_CoreSdk_GetNumberOfAvailableHostsFound env)).
Proof.
  unfold chosen_host. intros ->.
  destruct (Z.leb_spec 1 (U32.wrap (env_cin env))); simpl; [|discriminate].
  destruct (Z.leb_spec (U32.wrap (env_cin env))
              (U32.wrap (snd (env_CoreSdk_GetNumberOfAvailableHostsFound env))));
    [|discriminate].
  intros [= <-]. lia.
Qed.

Lemma count_events_app f l1 l2 :
  count_events f (l1 ++ l2) = (count_events f l1 + count_events f l2)%nat.
Proof. unfold count_events. now rewrite filter_app, length_app. Qed.

Lemma count_events_cons f e l :
  count_events f (e :: l) = ((if f e then 1 else 0) + count_events f l)%nat.
Proof. unfold count_events. rewrite filter_cons. destruct (f e); reflexivity. Qed.

Lemma count_events_nil f : count_events f [] = 0%nat.
Proof. reflexivity. Qed.

Lemma count_events_none f l :
  (forall e, e ∈ l -> f e = false) -> count_events f l = 0%nat.
Proof.
  induction l as [|e l IH]; intros H; [reflexivity|].
  rewrite count_events_cons, (H e) by set_solver. apply IH. intros. apply H. set_solver.
Qed.

Lemma count_events_prefix f l1 l2 :
  l1 `prefix_of` l2 -> (count_events f l1 <= count_events f l2)%nat.
Proof. intros [k ->]. rewrite count_events_app. lia. Qed.

Lemma selection_calls_count f env :
  f Ev_cin = false -> (forall fmt a, f (Ev_print fmt a) = false) ->
  count_events f (selection_calls env) = 0%nat.
Proof.
  intros Hc Hp. apply count_events_none. intros e He.
  apply selection_calls_elem in He. destruct He as [->|(fmt & a & ->)]; auto.
Qed.

(** X3. [Connect] never indexes outside the array of hosts that the SDK
    filled in: it always completes, and the host it connects to is one
    of the hosts found, namely the first one, or, when the user was
    asked, the one whose number, counted from 1, was typed. It connects
    at most once, and not at all when the discovery failed. *)
Theorem Connect_host_in_bounds (not_connected : Z) (m_ConnectionType : ConnectionType)
    (env : ConnectEnv) :
  exists r calls,
    Connect not_connected m_ConnectionType env = Ok (r, calls) /\
    (forall host, Ev_CoreSdk_ConnectToHost host ∈ calls ->
       discovery_ok env = true /\
       exists k : nat,
         chosen_host m_ConnectionType env = Some k /\
         Z.of_nat k < U32.wrap (snd (env_CoreSdk_GetNumberOfAvailableHostsFound env)) /\
         host = snd (env_CoreSdk_GetAvailableHostsFound env) k /\
         (asks_user m_ConnectionType env = false -> k = 0%nat) /\
         (asks_user m_ConnectionType env = true ->
            Z.of_nat k = U32.wrap (env_cin env) - 1)) /\
    (count_events is_connect_to calls <= 1)%nat.
Proof.
  destruct (Connect_cases not_connected m_ConnectionType env)
    as [(Hd & calls & HC & Hne & Hpre)|[(Hd & Hch & Hask & HC)|(Hd & k & host & Hch & Hk & HC)]].
  - eexists _, calls. split; [exact HC|]. split.
    + intros host Hin. apply (discovery_calls_prefix _ _ _ _ Hpre) in Hin.
      unfold discovery_calls in Hin. set_solver.
    + apply (count_events_prefix is_connect_to) in Hpre.
      unfold discovery_calls in Hpre. rewrite !count_events_cons, count_events_nil in Hpre.
      simpl in Hpre. lia.
  - eexists _, _. split; [exact HC|]. split.
    + intros host Hin. apply elem_of_app in Hin. destruct Hin as [Hin|Hin].
      * unfold discovery_calls in Hin. set_solver.
      * apply selection_calls_elem in Hin.
        destruct Hin as [?|(? & ? & ?)]; discriminate.
    + rewrite count_events_app, selection_calls_count by reflexivity.
      unfold discovery_calls. rewrite !count_events_cons, !count_events_nil. simpl. lia.
  - eexists _, _. split; [exact HC|]. split.
    + intros host' Hin.
      assert (host' = host).
      { apply elem_of_app in Hin. destruct Hin as [Hin|Hin].
        { unfold discovery_calls in Hin. set_solver. }
        apply elem_of_app in Hin. destruct Hin as [Hin|Hin].
        - destruct (asks_user m_ConnectionType env); [|now apply not_elem_of_nil in Hin].
          apply selection_calls_elem in Hin.
          destruct Hin as [?|(? & ? & ?)]; discriminate.
        - apply list_elem_of_singleton in Hin. congruence. }
      subst host'. split; [exact Hd|]. exists k.
      pose proof (lookup_lt_Some _ _ _ Hk) as Hlt.
      rewrite found_hosts_length in Hlt.
      pose proof (wrap_in_range (snd (env_CoreSdk_GetNumberOfAvailableHostsFound env)))
        as [? ?].
      split_and!; try assumption; try lia.
      * unfold found_hosts in Hk. rewrite list_lookup_fmap in Hk.
        rewrite lookup_seq_lt in Hk by lia. simpl in Hk. congruence.
      * intros Hno. unfold chosen_host in Hch. rewrite Hno in Hch. congruence.
      * intros Hyes. now apply (chosen_host_asked _ _ _ Hyes Hch).
    + rewrite !count_events_app.
      assert (count_events is_connect_to
                (if asks_user m_ConnectionType env then selection_calls env else [])
              = 0%nat) as ->.
      { destruct (asks_user m_ConnectionType env); [|reflexivity].
        now apply selection_calls_count. }
      unfold discovery_calls. rewrite !count_events_cons, !count_events_nil. simpl. lia.
Qed.

(** X4. [Connect] returns one of three codes. It returns
    [FailedToFindHosts] exactly when the discovery failed (a call failed
    or no host was found), and success exactly when the discovery
    succeeded, a host was chosen and [CoreSdk_ConnectToHost] returned
    anything but [NotConnected]: any other failure of that call is
    reported as success. *)
Theorem Connect_return_code (not_connected : Z) (m_ConnectionType : ConnectionType)
    (env : ConnectEnv) :
  exists r calls,
    Connect not_connected m_ConnectionType env = Ok (r, calls) /\
    (r = ClientReturnCode_Success \/ r = ClientReturnCode_FailedToFindHosts \/
     r = ClientReturnCode_FailedToConnect) /\
    (r = ClientReturnCode_FailedToFindHosts <-> discovery_ok env = false) /\
    (r = ClientReturnCode_Success <->
       discovery_ok env = true /\
       exists k host,
         chosen_host m_ConnectionType env = Some k /\
         found_hosts env !! k = Some host /\
         is_not_connected not_connected (env_CoreSdk_ConnectToHost env host) = false).
Proof.
  destruct (Connect_cases not_connected m_ConnectionType env)
    as [(Hd & calls & HC & Hne & Hpre)|[(Hd & Hch & Hask & HC)|(Hd & k & host & Hch & Hk & HC)]].
  - eexists _, _. split; [exact HC|]. split_and!; [auto| |].
    + now split.
    + split; [discriminate|]. intros [? _]. congruence.
  - eexists _, _. split; [exact HC|]. split_and!; [auto| |].
    + split; [discriminate|congruence].
    + split; [discriminate|]. intros (_ & k & host & ? & _). congruence.
  - eexists _, _. split; [exact HC|].
    destruct (is_not_connected not_connected (env_CoreSdk_ConnectToHost env host)) eqn:Hnc.
    + split_and!; [auto| |].
      * split; [discriminate|congruence].
      * split; [discriminate|]. intros (_ & k' & host' & Hk' & Hh' & Hn').
        rewrite Hch in Hk'. injection Hk' as <-. rewrite Hk in Hh'.
        injection Hh' as <-. congruence.
    + split_and!; [auto| |].
      * split; [discriminate|congruence].
      * split; [|reflexivity]. intros _. split; [exact Hd|]. eauto.
Qed.


(** ** [Initialize] *)

(** A call of [Connect] completes, searches for hosts once, and neither
    pauses nor sets the hand motion. *)
Lemma Connect_calls nc ct env :
  exists r calls,
    Connect nc ct env = Ok (r, calls) /\
    Connect_result nc ct env = Some r /\
    count_events is_sleep calls = 0%nat /\
    count_events is_host_search calls = 1%nat /\
    (forall m, Ev_CoreSdk_SetRawSkeletonHandMotion m ∉ calls).
Proof.
  unfold Connect_result.
  destruct (Connect_cases nc ct env)
    as [(Hd & calls & HC & Hne & Hpre)|[(Hd & Hch & Hask & HC)|(Hd & k & host & Hch & Hk & HC)]];
    rewrite HC; eexists _, _; (split; [reflexivity|]); (split; [reflexivity|]).
  - destruct Hpre as [rest Hrest]. unfold discovery_calls in Hrest.
    destruct calls as [|e1 calls]; [contradiction|].
    injection Hrest as <- Hrest.
    assert (Hsub : forall e, e ∈ calls ->
              e = Ev_CoreSdk_GetNumberOfAvailableHostsFound \/
              exists n, e = Ev_CoreSdk_GetAvailableHostsFound n).
    { intros e He.
      assert (He' : e ∈ calls ++ rest) by (apply elem_of_app; now left).
      rewrite <- Hrest in He'. set_solver. }
    rewrite !count_events_cons. simpl.
    rewrite !count_events_none.
    + split_and!; try reflexivity. intros m Hin.
      apply elem_of_cons in Hin. destruct Hin as [?|Hin]; [discriminate|].
      apply Hsub in Hin. destruct Hin as [?|[? ?]]; discriminate.
    + intros e He. apply Hsub in He. destruct He as [->|[? ->]]; reflexivity.
    + intros e He. apply Hsub in He. destruct He as [->|[? ->]]; reflexivity.
  - rewrite !count_events_app, !selection_calls_count by reflexivity.
    unfold discovery_calls. rewrite !count_events_cons, !count_events_nil. simpl.
    split_and!; try reflexivity. intros m Hin.
    do 3 (apply elem_of_cons in Hin; destruct Hin as [?|Hin]; [discriminate|]).
    apply selection_calls_elem in Hin. destruct Hin as [?|(? & ? & ?)]; discriminate.
  - rewrite !count_events_app.
    assert (Hsel : forall f, f Ev_cin = false -> (forall fmt a, f (Ev_print fmt a) = false) ->
              count_events f (if asks_user ct env then selection_calls env else []) = 0%nat).
    { intros f ? ?. destruct (asks_user ct env); [|reflexivity].
      now apply selection_calls_count. }
    rewrite !Hsel by reflexivity.
    unfold discovery_calls. rewrite !count_events_cons, !count_events_nil. simpl.
    split_and!; try reflexivity. intros m Hin.
    do 3 (apply elem_of_cons in Hin; destruct Hin as [?|Hin]; [discriminate|]).
    apply elem_of_app in Hin. destruct Hin as [Hin|Hin]; [|set_solver].
    destruct (asks_user ct env); [|now apply not_elem_of_nil in Hin].
    apply selection_calls_elem in Hin. destruct Hin as [?|(? & ? & ?)]; discriminate.
Qed.

Lemma count_events_pos f l e :
  e ∈ l -> f e = true -> (0 < count_events f l)%nat.
Proof.
  induction l as [|x l IH]; intros He Hf.
  - now apply not_elem_of_nil in He.
  - rewrite count_events_cons. apply elem_of_cons in He. destruct He as [<-|He].
    + rewrite Hf. lia.
    + specialize (IH He Hf). lia.
Qed.

(** What the loop may call: no hand motion, and pauses of 1000 ms only. *)
Lemma Connect_calls_loop nc ct env r calls e :
  Connect nc ct env = Ok (r, calls) -> e ∈ calls ->
  (forall m, e <> Ev_CoreSdk_SetRawSkeletonHandMotion m) /\
  (forall ms, e = Ev_sleep_for ms -> ms = 1000).
Proof.
  intros HC He.
  destruct (Connect_calls nc ct env) as (r' & calls' & HC' & _ & Hs & _ & Hm).
  rewrite HC in HC'. injection HC' as <- <-. split.
  - intros m ->. now apply (Hm m).
  - intros ms ->. pose proof (count_events_pos is_sleep _ _ He eq_refl). lia.
Qed.

(** The loop leaves at the first call of [Connect] that succeeds, having
    paused once per call that failed. *)
Lemma connect_loop_exits nc ct envs k : forall fuel attempt,
  (forall j, (j < k)%nat ->
     Connect_result nc ct (envs (attempt + j)%nat) <> Some ClientReturnCode_Success) ->
  Connect_result nc ct (envs (attempt + k)%nat) = Some ClientReturnCode_Success ->
  (k < fuel)%nat ->
  exists calls,
    connect_loop fuel attempt nc ct envs = Ok (Some tt, calls) /\
    count_events is_sleep calls = k /\
    count_events is_host_search calls = S k /\
    (forall e, e ∈ calls ->
       (forall m, e <> Ev_CoreSdk_SetRawSkeletonHandMotion m) /\
       (forall ms, e = Ev_sleep_for ms -> ms = 1000)).
Proof.
  induction k as [|k IH]; intros fuel attempt Hfail Hok Hfuel;
    (destruct fuel as [|fuel]; [lia|]); simpl;
    destruct (Connect_calls nc ct (envs attempt)) as (r & calls & HC & HR & Hs & Hh & _);
    pose proof (fun e => Connect_calls_loop _ _ _ _ _ e HC) as Hm;
    rewrite HC; simpl.
  - rewrite Nat.add_0_r, HR in Hok. injection Hok as ->. simpl.
    rewrite app_nil_r. exists calls. split_and!; try assumption; try reflexivity.
  - assert (Hr : ClientReturnCode_is_success r = false).
    { specialize (Hfail 0%nat ltac:(lia)). rewrite Nat.add_0_r, HR in Hfail.
      destruct r; try reflexivity. congruence. }
    rewrite Hr.
    destruct (IH fuel (S attempt)) as (calls' & HL & Hs' & Hh' & Hm').
    + intros j Hj. replace (S attempt + j)%nat with (attempt + S j)%nat by lia.
      apply Hfail. lia.
    + now replace (S attempt + k)%nat with (attempt + S k)%nat by lia.
    + lia.
    + rewrite HL. simpl. eexists. split; [reflexivity|].
      rewrite !count_events_app, !count_events_cons, Hs, Hh, Hs', Hh'. simpl.
      split_and!; try lia.
      intros e Hin. apply elem_of_app in Hin. destruct Hin as [Hin|Hin].
      * now apply Hm.
      * apply elem_of_cons in Hin. destruct Hin as [->|Hin].
        { split; intros; discriminate. }
        apply elem_of_cons in Hin. destruct Hin as [->|Hin].
        { split; [intros; discriminate|]. now intros ms [= <-]. }
        now apply Hm'.
Qed.

(** As long as [Connect] fails the loop goes on, one pause per call. *)
Lemma connect_loop_goes_on nc ct envs : forall fuel attempt,
  (forall j, (j < fuel)%nat ->
     Connect_result nc ct (envs (attempt + j)%nat) <> Some ClientReturnCode_Success) ->
  exists calls,
    connect_loop fuel attempt nc ct envs = Ok (None, calls) /\
    count_events is_sleep calls = fuel /\
    count_events is_host_search calls = fuel /\
    (forall e, e ∈ calls ->
       (forall m, e <> Ev_CoreSdk_SetRawSkeletonHandMotion m) /\
       (forall ms, e = Ev_sleep_for ms -> ms = 1000)).
Proof.
  induction fuel as [|fuel IH]; intros attempt Hfail; simpl.
  - eexists. split; [reflexivity|]. split_and!; try reflexivity.
    intros e Hin. now apply not_elem_of_nil in Hin.
  - destruct (Connect_calls nc ct (envs attempt)) as (r & calls & HC & HR & Hs & Hh & _).
    pose proof (fun e => Connect_calls_loop _ _ _ _ _ e HC) as Hm.
    rewrite HC. simpl.
    assert (Hr : ClientReturnCode_is_success r = false).
    { specialize (Hfail 0%nat ltac:(lia)). rewrite Nat.add_0_r, HR in Hfail.
      destruct r; try reflexivity. congruence. }
    rewrite Hr.
    destruct (IH (S attempt)) as (calls' & HL & Hs' & Hh' & Hm').
    { intros j Hj. replace (S attempt + j)%nat with (attempt + S j)%nat by lia.
      apply Hfail. lia. }
    rewrite HL. simpl. eexists. split; [reflexivity|].
    rewrite !count_events_app, !count_events_cons, Hs, Hh, Hs', Hh'. simpl.
    split_and!; try lia.
    intros e Hin. apply elem_of_app in Hin. destruct Hin as [Hin|Hin].
    + now apply Hm.
    + apply elem_of_cons in Hin. destruct Hin as [->|Hin].
      { split; intros; discriminate. }
      apply elem_of_cons in Hin. destruct Hin as [->|Hin].
      { split; [intros; discriminate|]. now intros ms [= <-]. }
      now apply Hm'.
Qed.

(** [Initialize] once the platform and the SDK are initialised. *)
Lemma Initialize_connecting fuel nc env envs res lcalls :
  init_ok env = true ->
  connect_loop fuel 0 nc ConnectionType_Remote envs = Ok (res, lcalls) ->
  Initialize fuel nc env envs =
  Ok (match res with None => None | Some _ => Some ClientReturnCode_Success end,
      [Ev_PlatformSpecificInitialization;
       Ev_CoreSdk_InitializeCore;
       Ev_CoreSdk_RegisterCallbackForRawSkeletonStream;
       Ev_CoordinateSystemVUH_Init;
       Ev_CoreSdk_InitializeCoordinateSystemWithVUH t_VUH true;
       Ev_print "MANUS Core client is connecting to MANUS Core. (make sure it is running)"%string []]
      ++ lcalls
      ++ match res with
         | None => []
         | Some _ =>
             Ev_print "MANUS Core client is connected, setting up skeletons."%string []
             :: Ev_CoreSdk_SetRawSkeletonHandMotion HandMotion_Tracker
             :: (if is_success (env_CoreSdk_SetRawSkeletonHandMotion env) then []
                 else [Ev_error "Failed to set hand motion mode. The value returned was {}."%string
                         [ArgZ (SDKReturnCode_value (env_CoreSdk_SetRawSkeletonHandMotion env))]])
         end).
Proof.
  unfold init_ok, Initialize, InitializeSDK, RegisterAllCallbacks. intros Hok HL.
  destruct (env_PlatformSpecificInitialization env); [|discriminate].
  destruct (env_CoreSdk_InitializeCore env); [|discriminate].
  destruct (env_CoreSdk_RegisterCallbackForRawSkeletonStream env); [|discriminate].
  destruct (env_CoreSdk_InitializeCoordinateSystemWithVUH env); [|discriminate].
  simpl. rewrite HL. simpl.
  destruct res as [[]|]; simpl.
  - destruct (env_CoreSdk_SetRawSkeletonHandMotion env); simpl; reflexivity.
  - now rewrite app_nil_r.
Qed.

(** X6. When the platform and the SDK initialise, [Initialize] retries
    [Connect] until it succeeds: if the first [k] calls fail and the next
    one succeeds, it returns success after [k] pauses, each of 1000 ms,
    and [k + 1] host searches, having asked for the tracker hand motion;
    neither a failure of [Connect] nor a failure to set the hand motion
    shows in the result. *)
Theorem Initialize_retries (fuel k : nat) (not_connected : Z) (env : InitEnv)
    (envs : nat -> ConnectEnv) :
  init_ok env = true ->
  (forall j, (j < k)%nat ->
     Connect_result not_connected ConnectionType_Remote (envs j)
     <> Some ClientReturnCode_Success) ->
  Connect_result not_connected ConnectionType_Remote (envs k)
  = Some ClientReturnCode_Success ->
  (k < fuel)%nat ->
  exists calls,
    Initialize fuel not_connected env envs = Ok (Some ClientReturnCode_Success, calls) /\
    count_events is_sleep calls = k /\
    count_events is_host_search calls = S k /\
    (forall ms, Ev_sleep_for ms ∈ calls -> ms = 1000) /\
    (Ev_CoreSdk_SetRawSkeletonHandMotion HandMotion_Tracker ∈ calls).
Proof.
  intros Hinit Hfail Hok Hfuel.
  destruct (connect_loop_exits not_connected ConnectionType_Remote envs k fuel 0)
    as (lcalls & HL & Hs & Hh & Hm); try assumption.
  rewrite (Initialize_connecting _ _ _ _ _ _ Hinit HL).
  eexists. split; [reflexivity|].
  rewrite !count_events_app, !count_events_cons, !count_events_nil, Hs, Hh. simpl.
  destruct (is_success (env_CoreSdk_SetRawSkeletonHandMotion env));
    rewrite ?count_events_cons, !count_events_nil; simpl.
  - split_and!; try lia; [|set_solver].
    intros ms Hin.
    do 6 (apply elem_of_cons in Hin; destruct Hin as [?|Hin]; [discriminate|]).
    apply elem_of_app in Hin. destruct Hin as [Hin|Hin].
    + now apply (Hm _ Hin).
    + set_solver.
  - split_and!; try lia; [|set_solver].
    intros ms Hin.
    do 6 (apply elem_of_cons in Hin; destruct Hin as [?|Hin]; [discriminate|]).
    apply elem_of_app in Hin. destruct Hin as [Hin|Hin].
    + now apply (Hm _ Hin).
    + set_solver.
Qed.

(** X7. While [Connect] fails, [Initialize] does not return: whatever
    the number [n] of calls of [Connect] looked at, if they all fail it
    is still in its loop after them, having paused [n] times, and has
    not yet asked for the hand motion. *)
Theorem Initialize_waits (fuel : nat) (not_connected : Z) (env : InitEnv)
    (envs : nat -> ConnectEnv) :
  init_ok env = true ->
  (forall j, (j < fuel)%nat ->
     Connect_result not_connected ConnectionType_Remote (envs j)
     <> Some ClientReturnCode_Success) ->
  exists calls,
    Initialize fuel not_connected env envs = Ok (None, calls) /\
    count_events is_sleep calls = fuel /\
    count_events is_host_search calls = fuel /\
    (forall m, Ev_CoreSdk_SetRawSkeletonHandMotion m ∉ calls).
Proof.
  intros Hinit Hfail.
  destruct (connect_loop_goes_on not_connected ConnectionType_Remote envs fuel 0)
    as (lcalls & HL & Hs & Hh & Hm); try assumption.
  rewrite (Initialize_connecting _ _ _ _ _ _ Hinit HL).
  eexists. split; [reflexivity|].
  rewrite !count_events_app, !count_events_cons, !count_events_nil, Hs, Hh. simpl.
  split_and!; try lia.
  intros m Hin.
  do 6 (apply elem_of_cons in Hin; destruct Hin as [?|Hin]; [discriminate|]).
  rewrite app_nil_r in Hin. now apply (proj1 (Hm _ Hin) m).
Qed.

(** The loop itself is defined. *)
Lemma connect_loop_total fuel nc ct envs : forall attempt,
  exists res lcalls, connect_loop fuel attempt nc ct envs = Ok (res, lcalls).
Proof.
  induction fuel as [|f IH]; intros a; simpl; [eauto|].
  destruct (Connect_calls nc ct (envs a)) as (r & calls & HC & _). rewrite HC. simpl.
  destruct (ClientReturnCode_is_success r); simpl; [eauto|].
  destruct (IH (S a)) as (res & lcalls & ->). simpl. eauto.
Qed.

(** X8. [Initialize] returns a failure only for a failed platform or
    SDK initialisation, before any attempt to connect: with the platform
    failing it returns [FailedPlatformSpecificInitialization] without
    touching the SDK, with the SDK failing [FailedToInitialize]; no host
    is searched for and there is no pause. Whenever it returns, the code
    is one of these two or success, and success only after the platform
    and the SDK initialised. *)
Theorem Initialize_failures (fuel : nat) (not_connected : Z) (env : InitEnv)
    (envs : nat -> ConnectEnv) :
  (init_ok env = false ->
   exists calls,
     Initialize fuel not_connected env envs =
     Ok (Some (if env_PlatformSpecificInitialization env
               then ClientReturnCode_FailedToInitialize
               else ClientReturnCode_FailedPlatformSpecificInitialization), calls) /\
     count_events is_host_search calls = 0%nat /\
     count_events is_sleep calls = 0%nat /\
     (env_PlatformSpecificInitialization env = false ->
      calls = [Ev_PlatformSpecificInitialization])) /\
  (forall code calls,
     Initialize fuel not_connected env envs = Ok (Some code, calls) ->
     (code = ClientReturnCode_Success /\ init_ok env = true) \/
     (code = ClientReturnCode_FailedToInitialize /\ init_ok env = false) \/
     (code = ClientReturnCode_FailedPlatformSpecificInitialization /\
      init_ok env = false)) /\
  Initialize fuel not_connected env envs <> UB.
Proof.
  assert (Hfail : init_ok env = false ->
    exists calls,
     Initialize fuel not_connected env envs =
     Ok (Some (if env_PlatformSpecificInitialization env
               then ClientReturnCode_FailedToInitialize
               else ClientReturnCode_FailedPlatformSpecificInitialization), calls) /\
     count_events is_host_search calls = 0%nat /\
     count_events is_sleep calls = 0%nat /\
     (env_PlatformSpecificInitialization env = false ->
      calls = [Ev_PlatformSpecificInitialization])).
  { unfold init_ok, Initialize, InitializeSDK, RegisterAllCallbacks.
    destruct (env_PlatformSpecificInitialization env); simpl.
    2:{ intros _. eexists. split; [reflexivity|]. now split_and!. }
    destruct (env_CoreSdk_InitializeCore env); simpl.
    2:{ intros _. eexists. split; [reflexivity|]. split_and!; try reflexivity. discriminate. }
    destruct (env_CoreSdk_RegisterCallbackForRawSkeletonStream env); simpl.
    2:{ intros _. eexists. split; [reflexivity|]. split_and!; try reflexivity. discriminate. }
    destruct (env_CoreSdk_InitializeCoordinateSystemWithVUH env); simpl.
    2:{ intros _. eexists. split; [reflexivity|]. split_and!; try reflexivity. discriminate. }
    discriminate. }
  assert (Hloop := connect_loop_total fuel not_connected ConnectionType_Remote envs 0).
  destruct (init_ok env) eqn:Hinit.
  - destruct Hloop as (res & lcalls & HL).
    rewrite (Initialize_connecting _ _ _ _ _ _ Hinit HL).
    split_and!; [discriminate| |discriminate].
    intros code calls [= Hc _]. left. split; [|reflexivity].
    destruct res; congruence.
  - destruct (Hfail eq_refl) as (calls & HI & Hrest).
    split_and!; [intros _; eauto| |rewrite HI; discriminate].
    intros code calls' HI'. rewrite HI in HI'. injection HI' as <- _.
    destruct (env_PlatformSpecificInitialization env); auto.
Qed.

Lemma Initialize_retries_witness :
  exists calls,
    Initialize 5 Sample.not_connected Sample.init_env Sample.connect_envs
    = Ok (Some ClientReturnCode_Success, calls) /\
    count_events is_sleep calls = 2%nat /\
    count_events is_host_search calls = 3%nat /\
    (forall ms, Ev_sleep_for ms ∈ calls -> ms = 1000) /\
    (Ev_CoreSdk_SetRawSkeletonHandMotion HandMotion_Tracker ∈ calls).
Proof.
  apply (Initialize_retries 5 2 Sample.not_connected Sample.init_env Sample.connect_envs).
  - reflexivity.
  - intros [|[|j]] Hj; [vm_compute; discriminate|vm_compute; discriminate|lia].
  - vm_compute. reflexivity.
  - lia.
Defined.

Lemma Initialize_waits_witness :
  exists calls,
    Initialize 2 Sample.not_connected Sample.init_env Sample.connect_envs
    = Ok (None, calls) /\
    count_events is_sleep calls = 2%nat /\
    count_events is_host_search calls = 2%nat /\
    (forall m, Ev_CoreSdk_SetRawSkeletonHandMotion m ∉ calls).
Proof.
  apply (Initialize_waits 2 Sample.not_connected Sample.init_env Sample.connect_envs).
  - reflexivity.
  - intros [|[|j]] Hj; [vm_compute; discriminate|vm_compute; discriminate|lia].
Defined.

(** ** [bridge_create] *)



(** * More on the hand-off slot *)

Lemma held_length b : (length (held b) <= 2)%nat.
Proof. unfold held. destruct (m_NextRawSkeleton b), (m_RawSkeleton b); simpl; lia. Qed.

Lemma slot_inv_sizes st :
  slot_inv st ->
  size (live (snd st)) = length (held (fst st)) /\
  (length (held (fst st)) + length (destroyed (snd st)))%nat = created (snd st).
Proof.
  intros [Hnd Hlive Hacc]. split.
  - rewrite <- (size_dom (D := gset nat)).
    assert (Hdom : dom (live (snd st)) = (list_to_set (held (fst st)) : gset nat)).
    { apply set_eq. intros p. rewrite elem_of_dom, elem_of_list_to_set. apply Hlive. }
    rewrite Hdom. apply size_list_to_set.
    apply NoDup_app in Hnd. tauto.
  - rewrite <- length_app.
    transitivity (length (seq 0 (created (snd st)))); [|apply length_seq].
    apply Permutation_length, NoDup_Permutation; [exact Hnd|apply NoDup_seq|].
    intros p. rewrite <- Hacc, elem_of_seq. lia.
Qed.

(** X10. However many snapshots are published and however rarely they
    are claimed, at most two snapshots are alive after any run of
    publications and claims; all the others that were created have been
    destroyed. *)
Theorem slot_memory_bound (ops : list slot_op) :
  exists st rs,
    slot_run ops slot_start = Ok (st, rs) /\
    (size (live (snd st)) <= 2)%nat /\
    (size (live (snd st)) + length (destroyed (snd st)))%nat = count_publishes ops.
Proof.
  destruct (slot_run_spec ops slot_start slot_inv_start)
    as (st & rs & Hrun & Hinv & Hcr & _).
  destruct (slot_inv_sizes st Hinv) as [Hsize Hsum].
  exists st, rs. split; [exact Hrun|]. rewrite Hsize. split.
  - apply held_length.
  - simpl in Hcr. lia.
Qed.

(** A publication leaves the retained snapshot alone. *)
Lemma slot_publish_keeps_retained c' st p c :
  slot_inv st ->
  m_RawSkeleton (fst st) = Some p ->
  live (snd st) !! p = Some c ->
  (p ∉ destroyed (snd st)) ->
  exists st',
    slot_publish c' st = Ok st' /\
    slot_inv st' /\
    m_RawSkeleton (fst st') = Some p /\
    live (snd st') !! p = Some c /\
    (p ∉ destroyed (snd st')).
Proof.
  intros Hinv Hraw Hp Hnd.
  destruct (slot_inv_fresh st Hinv) as [Hfresh _].
  destruct (slot_publish_spec c' st Hinv)
    as (st' & Hrun & Hinv' & Hnext & Hraw' & Hlive & Hcr & Hds).
  exists st'. split_and!; try assumption.
  - congruence.
  - destruct Hinv as [Hdist _ _].
    unfold slot_publish, publish, heap_new in Hrun.
    destruct st as [[nxt raw] [lv cr ds]]. simpl in *. subst raw.
    assert (Hpc : p <> cr) by congruence.
    destruct nxt as [q|]; simpl in Hrun.
    + assert (Hq : q <> p).
      { intros ->. unfold held in Hdist. simpl in Hdist.
        apply NoDup_cons in Hdist. set_solver. }
      unfold heap_delete in Hrun. simpl in Hrun.
      destruct (<[cr:=c']> lv !! q); [|discriminate]. simpl in Hrun.
      injection Hrun as <-. simpl.
      now rewrite lookup_delete_ne, lookup_insert_ne by congruence.
    + injection Hrun as <-. simpl. now rewrite lookup_insert_ne by congruence.
  - rewrite Hds. intros Hin. apply elem_of_app in Hin. destruct Hin as [Hin|Hin];
      [|contradiction].
    destruct Hinv as [Hdist _ _]. unfold held in Hdist. rewrite Hraw in Hdist.
    destruct (m_NextRawSkeleton (fst st)) as [q|]; simpl in Hin;
      [|now apply not_elem_of_nil in Hin].
    apply list_elem_of_singleton in Hin. subst q. simpl in Hdist.
    apply NoDup_cons in Hdist. set_solver.
Qed.

(** X11. The snapshot that a claim has handed to the consumer stays
    alive and unchanged whatever is published afterwards, and it is the
    next claim that destroys it. *)
Theorem claimed_snapshot_lifetime (st : Bridge * Heap) (b1 : Bridge) (h1 : Heap)
    (p : ptr) (c : ClientRawSkeletonCollection)
    (published : list ClientRawSkeletonCollection) :
  slot_inv st ->
  slot_claim st = Ok (b1, h1, Some (p, c)) ->
  exists st2,
    slot_run (map Publish published) (b1, h1) = Ok (st2, []) /\
    m_RawSkeleton (fst st2) = Some p /\
    live (snd st2) !! p = Some c /\
    (p ∉ destroyed (snd st2)) /\
    exists b3 h3 r,
      slot_claim st2 = Ok (b3, h3, r) /\
      (p ∈ destroyed h3) /\
      live h3 !! p = None.
Proof.
  intros Hinv Hclaim.
  destruct (slot_claim_spec st Hinv) as (b1' & h1' & Hc & Hinv1 & Hn1 & Hr1 & Hcr1 & Hd1).
  rewrite Hclaim in Hc. injection Hc as <- <- Hpend.
  assert (Hraw : m_RawSkeleton b1 = Some p).
  { symmetry in Hpend. apply (slot_pending_held _ _ _ Hinv) in Hpend. destruct Hpend.
    congruence. }
  assert (Hlive : live h1 !! p = Some c).
  { unfold slot_claim in Hclaim.
    destruct (claim st.1 st.2) as [[b h]|]; [|discriminate]. simpl in Hclaim.
    destruct (m_RawSkeleton b) as [q|]; [|discriminate].
    unfold heap_deref in Hclaim.
    destruct (live h !! q) as [cq|] eqn:Hq; [|discriminate]. simpl in Hclaim.
    now injection Hclaim as <- <- <- <-. }
  assert (Hnd : p ∉ destroyed h1).
  { destruct Hinv1 as [Hdist _ _]. simpl in Hdist. unfold held in Hdist.
    rewrite Hn1, Hraw in Hdist. simpl in Hdist. apply NoDup_cons in Hdist. tauto. }
  clear Hclaim Hpend Hn1 Hr1 Hcr1 Hd1 Hinv st.
  assert (Hgen : forall cs st1, slot_inv st1 -> m_RawSkeleton (fst st1) = Some p ->
            live (snd st1) !! p = Some c -> (p ∉ destroyed (snd st1)) ->
            exists st2, slot_run (map Publish cs) st1 = Ok (st2, []) /\
              slot_inv st2 /\ m_RawSkeleton (fst st2) = Some p /\
              live (snd st2) !! p = Some c /\ (p ∉ destroyed (snd st2))).
  { induction cs as [|c' cs IH]; intros st1 Hi Hr Hl Hn; simpl.
    - exists st1. now split_and!.
    - destruct (slot_publish_keeps_retained c' st1 p c Hi Hr Hl Hn)
        as (st' & Hrun & Hi' & Hr' & Hl' & Hn').
      rewrite Hrun. simpl. now apply IH. }
  destruct (Hgen published (b1, h1) Hinv1 Hraw Hlive Hnd)
    as (st2 & Hrun & Hinv2 & Hr2 & Hl2 & Hn2).
  exists st2. split_and!; try assumption.
  destruct (slot_claim_spec st2 Hinv2) as (b3 & h3 & Hc3 & Hinv3 & _ & _ & _ & Hd3).
  exists b3, h3, (slot_pending st2). split; [exact Hc3|].
  assert (Hin : p ∈ destroyed h3).
  { rewrite Hd3, Hr2. simpl. set_solver. }
  split; [exact Hin|].
  destruct Hinv3 as [Hdist Hl3 _]. simpl in *.
  destruct (live h3 !! p) eqn:E; [|reflexivity]. exfalso.
  assert (Hh : p ∈ held b3) by (apply Hl3; eauto).
  apply NoDup_app in Hdist. destruct Hdist as (_ & Hdisj & _).
  now apply (Hdisj p Hh).
Qed.

Lemma slot_inv_pending c : slot_inv (Sample.pending c).
Proof.
  destruct (slot_publish_spec c slot_start slot_inv_start) as (st' & Hrun & Hinv & _).
  unfold slot_publish in Hrun. simpl in Hrun. injection Hrun as <-. exact Hinv.
Qed.

Lemma claimed_snapshot_lifetime_witness :
  exists st2,
    slot_run [Publish Sample.snapshot53; Publish Sample.snapshot_none]
      ({| m_NextRawSkeleton := None; m_RawSkeleton := Some 0%nat |},
       snd (Sample.pending Sample.snapshot35)) = Ok (st2, []) /\
    m_RawSkeleton (fst st2) = Some 0%nat /\
    live (snd st2) !! 0%nat = Some Sample.snapshot35 /\
    (0%nat ∉ destroyed (snd st2)) /\
    exists b3 h3 r,
      slot_claim st2 = Ok (b3, h3, r) /\ (0%nat ∈ destroyed h3) /\ live h3 !! 0%nat = None.
Proof.
  exact (claimed_snapshot_lifetime (Sample.pending Sample.snapshot35) _ _ 0%nat
           Sample.snapshot35 [Sample.snapshot53; Sample.snapshot_none]
           (slot_inv_pending Sample.snapshot35) eq_refl).
Defined.

(** * More on the poll *)

(** The loop with every lookup failing. *)
Lemma skeleton_loop_no_lookup sdk C rest : forall i (buf : buffer_t) bi,
  (forall k g n, sdk k g n = None) ->
  skeleton_loop sdk rest i C buf bi = Ok (buf, bi).
Proof.
  induction rest as [|sk rest IH]; intros i buf bi Hsdk; simpl; [reflexivity|].
  destruct (C <? _); [reflexivity|]. rewrite Hsdk. now apply IH.
Qed.

(** X12. When the first skeleton of the pending snapshot declares more
    nodes than the buffer holds, [poll] writes nothing, stores 0 into
    [*count] and returns -2, and the snapshot is taken all the same:
    nothing is pending afterwards. *)
Theorem poll_first_skeleton_too_large (sdk : NodeInfoLookup) (w : Process) (b b' : Bridge)
    (h' : Heap) (p : ptr) (sk : ClientRawSkeleton) (rest : list ClientRawSkeleton)
    (buffer : buffer_t) (buffer_size count : Z) :
  s_Instance w = Some b ->
  claim b (heap w) = Ok (b', h') ->
  m_RawSkeleton b' = Some p ->
  live h' !! p = Some {| skeletons := sk :: rest |} ->
  Z.of_nat (length (sk :: rest)) < U32.modulus ->
  U32.in_range (nodesCount (info sk)) ->
  buffer_size < nodesCount (info sk) ->
  poll sdk w (Some buffer) buffer_size (Some count)
  = Ok {| pr_process := {| s_Instance := Some b'; heap := h' |};
          pr_buffer := Some buffer;
          pr_count := Some 0;
          pr_status := -2 |}
  /\ m_NextRawSkeleton b' = None.
Proof.
  intros Hw Hc Hp Hl Hlen Hn Hbig.
  unfold poll. rewrite Hw.
  rewrite (Poll_claimed _ _ _ _ _ _ _ _ _ Hc Hp Hl).
  rewrite flatten_wf by exact Hlen. simpl skeletons. simpl skeleton_loop.
  rewrite add_small by (simpl; exact Hn). rewrite Z.add_0_l.
  destruct (Z.ltb_spec buffer_size (nodesCount (info sk))); [|lia].
  split; [reflexivity|].
  apply claim_inv in Hc. destruct Hc as [_ ->]. reflexivity.
Qed.

Lemma poll_first_skeleton_too_large_witness :
  poll Sample.sdk_ok (Sample.process_pending Sample.snapshot53)
       (Some (Sample.blank 4)) 4 (Some 99)
  = Ok {| pr_process := Sample.process_retained Sample.snapshot53;
          pr_buffer := Some (Sample.blank 4);
          pr_count := Some 0;
          pr_status := -2 |}.
Proof.
  refine (proj1 (poll_first_skeleton_too_large Sample.sdk_ok
            (Sample.process_pending Sample.snapshot53) _ _ _ 0%nat
            Sample.sk5 [Sample.sk3] (Sample.blank 4) 4 99
            eq_refl eq_refl eq_refl eq_refl _ _ _)).
  - simpl. rewrite modulus_eq. lia.
  - unfold U32.in_range. simpl. rewrite modulus_eq. lia.
  - simpl. lia.
Defined.

(** X13. When every node information lookup fails, [poll] writes
    nothing, stores 0 into [*count] and returns -2, whatever the
    snapshot and the capacity; the snapshot is taken all the same. *)
Theorem poll_all_lookups_fail (sdk : NodeInfoLookup) (w : Process) (b b' : Bridge)
    (h' : Heap) (p : ptr) (c : ClientRawSkeletonCollection)
    (buffer : buffer_t) (buffer_size count : Z) :
  s_Instance w = Some b ->
  claim b (heap w) = Ok (b', h') ->
  m_RawSkeleton b' = Some p ->
  live h' !! p = Some c ->
  (forall i glove n, sdk i glove n = None) ->
  poll sdk w (Some buffer) buffer_size (Some count)
  = Ok {| pr_process := {| s_Instance := Some b'; heap := h' |};
          pr_buffer := Some buffer;
          pr_count := Some 0;
          pr_status := -2 |}
  /\ m_NextRawSkeleton b' = None.
Proof.
  intros Hw Hc Hp Hl Hsdk.
  unfold poll. rewrite Hw.
  rewrite (Poll_claimed _ _ _ _ _ _ _ _ _ Hc Hp Hl).
  unfold flatten. rewrite skeleton_loop_no_lookup by exact Hsdk. simpl.
  split; [reflexivity|].
  apply claim_inv in Hc. destruct Hc as [_ ->]. reflexivity.
Qed.

Lemma poll_all_lookups_fail_witness :
  poll (fun _ _ _ => None) (Sample.process_pending Sample.snapshot35)
       (Some (Sample.blank 10)) 10 (Some 99)
  = Ok {| pr_process := Sample.process_retained Sample.snapshot35;
          pr_buffer := Some (Sample.blank 10);
          pr_count := Some 0;
          pr_status := -2 |}.
Proof.
  exact (proj1 (poll_all_lookups_fail (fun _ _ _ => None)
           (Sample.process_pending Sample.snapshot35) _ _ _ 0%nat Sample.snapshot35
           (Sample.blank 10) 10 99 eq_refl eq_refl eq_refl eq_refl
           (fun _ _ _ => eq_refl))).
Defined.

(** X14. The callback publishes also a frame of no skeleton: fired with
    a skeleton count of zero on a bridge that holds a pending snapshot,
    it destroys that snapshot, which no poll will ever return, and the
    next poll writes nothing and returns -2. *)
Theorem empty_frame_overwrites (sdk : StreamSDK) (p : SkeletonStreamInfo)
    (w : Process) (b : Bridge) (q : ptr) :
  s_Instance w = Some b ->
  slot_inv (b, heap w) ->
  m_NextRawSkeleton b = Some q ->
  U32.wrap (skeletonsCount p) = 0 ->
  exists w1,
    OnRawSkeletonStreamCallback sdk p w = Ok w1 /\
    (q ∈ destroyed (heap w1)) /\
    live (heap w1) !! q = None /\
    forall sdk' (buffer : buffer_t) buffer_size count,
    exists w2,
      poll sdk' w1 (Some buffer) buffer_size (Some count)
      = Ok {| pr_process := w2; pr_buffer := Some buffer;
              pr_count := Some 0; pr_status := -2 |}.
Proof.
  intros Hw Hinv Hq Hzero.
  rewrite (callback_publishes _ _ _ _ Hw).
  destruct (slot_publish_spec (assemble sdk p) (b, heap w) Hinv)
    as (st1 & Hrun & Hinv1 & Hnext & Hraw & Hlive & Hcr & Hds).
  rewrite Hrun. simpl. eexists. split; [reflexivity|]. simpl.
  simpl in Hds. rewrite Hq in Hds. simpl in Hds.
  assert (Hin : q ∈ destroyed (snd st1)) by (rewrite Hds; set_solver).
  split; [exact Hin|]. split.
  { destruct Hinv1 as [Hdist Hl _].
    destruct (live (snd st1) !! q) eqn:E; [|reflexivity]. exfalso.
    assert (Hh : q ∈ held (fst st1)) by (apply Hl; eauto).
    apply NoDup_app in Hdist. destruct Hdist as (_ & Hdisj & _).
    now apply (Hdisj q Hh). }
  intros sdk' buffer buffer_size count.
  destruct (slot_claim_spec st1 Hinv1) as (b2 & h2 & Hc & _).
  unfold slot_claim in Hc.
  destruct (claim (fst st1) (snd st1)) as [[b2' h2']|] eqn:Hclaim; [|discriminate].
  simpl in Hc.
  pose proof (claim_inv _ _ _ _ Hclaim) as [_ Hb2].
  assert (Hp2 : m_RawSkeleton b2' = Some (created (heap w))).
  { rewrite Hb2. simpl. exact Hnext. }
  rewrite Hp2 in Hc.
  destruct (heap_deref (created (heap w)) h2') as [c2|] eqn:Hd; [|discriminate].
  simpl in Hc. injection Hc as _ _ Hpend.
  unfold slot_pending in Hpend. rewrite Hnext in Hpend. simpl in Hlive, Hpend.
  rewrite Hlive in Hpend. simpl in Hpend. injection Hpend as ->.
  unfold heap_deref in Hd. destruct (live h2' !! created (heap w)) as [c3|] eqn:Hl3;
    [|discriminate]. injection Hd as ->.
  eexists. unfold poll. simpl.
  rewrite (Poll_claimed _ _ _ _ _ _ _ _ _ Hclaim Hp2 Hl3).
  unfold flatten. rewrite assemble_skeletons, length_map, length_seq, Hzero. simpl.
  reflexivity.
Qed.

Lemma empty_frame_overwrites_witness :
  exists w1,
    OnRawSkeletonStreamCallback Sample.stream_ok
      {| si_publishTime := 43; skeletonsCount := 0 |}
      (Sample.process_pending Sample.snapshot35) = Ok w1 /\
    (0%nat ∈ destroyed (heap w1)) /\
    live (heap w1) !! 0%nat = None /\
    forall sdk' (buffer : buffer_t) buffer_size count,
    exists w2,
      poll sdk' w1 (Some buffer) buffer_size (Some count)
      = Ok {| pr_process := w2; pr_buffer := Some buffer;
              pr_count := Some 0; pr_status := -2 |}.
Proof.
  apply (empty_frame_overwrites Sample.stream_ok _
           (Sample.process_pending Sample.snapshot35) _ 0%nat eq_refl).
  - exact (slot_inv_pending Sample.snapshot35).
  - reflexivity.
  - reflexivity.
Defined.

(** ** What a poll writes, in general *)

Lemma splice_take (buf recs : buffer_t) (bi r : nat) :
  length recs = r -> (bi + r <= length buf)%nat ->
  take (bi + r) (take bi buf ++ recs ++ drop (bi + r) buf) = take bi buf ++ recs.
Proof.
  intros Hr Hb. rewrite app_assoc.
  rewrite take_app_le by (rewrite length_app, length_take; lia).
  apply take_ge. rewrite length_app, length_take. lia.
Qed.

Lemma splice_drop (buf recs : buffer_t) (bi r k : nat) :
  length recs = r -> (bi + r <= length buf)%nat -> (bi + r <= k)%nat ->
  drop k (take bi buf ++ recs ++ drop (bi + r) buf) = drop k buf.
Proof.
  intros Hr Hb Hk. rewrite app_assoc.
  rewrite drop_app_ge by (rewrite length_app, length_take; lia).
  rewrite length_app, length_take, drop_drop. f_equal. lia.
Qed.

Lemma emitted_records_cons sk ni l :
  emitted_records ((sk, ni) :: l) = skeleton_records ni sk ++ emitted_records l.
Proof. reflexivity. Qed.

Lemma emitted_sublist sdk C rest : forall i bi,
  map fst (emitted sdk rest i C bi) `sublist_of` rest.
Proof.
  induction rest as [|sk rest IH]; intros i bi; simpl; [constructor|].
  destruct (C <? _); [apply sublist_nil_l|].
  destruct (sdk i _ _); simpl.
  - apply sublist_skip, IH.
  - apply sublist_cons, IH.
Qed.

Lemma total_nodes_sublist l1 l2 :
  l1 `sublist_of` l2 -> Forall skeleton_wf l2 ->
  Forall skeleton_wf l1 /\ total_nodes l1 <= total_nodes l2.
Proof.
  induction 1 as [|x l1 l2 _ IH|x l1 l2 _ IH]; intros Hwf.
  - split; [constructor|lia].
  - inversion Hwf; subst. destruct (IH ltac:(assumption)) as [? ?].
    split; [now constructor|]. rewrite !total_nodes_cons. lia.
  - inversion Hwf as [|? ? [[? ?] ?] ?]; subst.
    destruct (IH ltac:(assumption)) as [? ?].
    split; [assumption|]. rewrite total_nodes_cons. lia.
Qed.

Lemma skeleton_loop_emits sdk C rest : forall i (buf : buffer_t) bi,
  Forall skeleton_wf rest ->
  0 <= bi <= C ->
  C <= Z.of_nat (length buf) ->
  bi + total_nodes rest < U32.modulus ->
  let em := emitted sdk rest i C bi in
  skeleton_loop sdk rest i C buf bi =
  Ok (take (Z.to_nat bi) buf ++ emitted_records em
        ++ drop (Z.to_nat (bi + total_nodes (map fst em))) buf,
      bi + total_nodes (map fst em)).
Proof.
  induction rest as [|sk rest IH]; intros i buf bi Hwf Hbi HL Hm; simpl.
  - rewrite Z.add_0_r, take_drop. reflexivity.
  - inversion Hwf as [|? ? Hsk Hrest]; subst.
    pose proof (total_nodes_nonneg _ Hrest) as Htot.
    pose proof Hsk as [[Hn0 Hn1] Hlen].
    rewrite total_nodes_cons in Hm.
    rewrite add_small by (unfold U32.in_range; lia).
    destruct (Z.ltb_spec C (bi + nodesCount (info sk))) as [?|Hchk].
    { simpl. rewrite Z.add_0_r, take_drop. reflexivity. }
    destruct (sdk i (gloveId (info sk)) (nodesCount (info sk))) as [ni|].
    2:{ apply IH; try assumption; lia. }
    pose proof (skeleton_records_length ni sk Hsk) as Hrl.
    rewrite node_loop_complete; rewrite ?drop_0; try lia.
    fold (skeleton_records ni sk). set (recs := skeleton_records ni sk) in *.
    simpl obind. rewrite Z2Nat.id by lia.
    assert (Hr : length recs = Z.to_nat (nodesCount (info sk))) by lia.
    rewrite IH; try assumption; try lia.
    2:{ rewrite !length_app, length_take, length_drop. lia. }
    set (em := emitted sdk rest (S i) C (bi + nodesCount (info sk))).
    pose proof (emitted_sublist sdk C rest (S i) (bi + nodesCount (info sk))) as Hsub.
    fold em in Hsub.
    destruct (total_nodes_sublist _ _ Hsub Hrest) as [Hwfe Hle].
    pose proof (total_nodes_nonneg _ Hwfe) as Hnn.
    simpl map. rewrite total_nodes_cons, emitted_records_cons. simpl fst.
    replace (Z.to_nat (bi + nodesCount (info sk)))
      with (Z.to_nat bi + Z.to_nat (nodesCount (info sk)))%nat by lia.
    rewrite splice_take by lia.
    rewrite splice_drop by lia.
    rewrite <- !app_assoc, Z.add_assoc. reflexivity.
Qed.

(** X15. For a well-formed snapshot of fewer than [2^32] nodes in all
    and a buffer of at least [buffer_size] entries, the flattening
    completes, and the buffer then starts with the records of the
    skeletons emitted, in snapshot order, each one whole, followed by
    the old entries; the count is the sum of their node counts. The
    skeletons emitted are those met before the first one that fails the
    capacity check, less those whose lookup fails. *)
Theorem flatten_output (sdk : NodeInfoLookup) (c : ClientRawSkeletonCollection)
    (buffer_size : Z) (buffer : buffer_t) :
  snapshot_wf c ->
  U32.in_range buffer_size ->
  buffer_size <= Z.of_nat (length buffer) ->
  total_nodes (skeletons c) < U32.modulus ->
  let em := emitted sdk (skeletons c) 0 buffer_size 0 in
  flatten sdk c buffer_size buffer =
    Ok (emitted_records em ++ drop (Z.to_nat (total_nodes (map fst em))) buffer,
        total_nodes (map fst em)) /\
  map fst em `sublist_of` skeletons c /\
  Z.of_nat (length (emitted_records em)) = total_nodes (map fst em).
Proof.
  intros [Hlen Hwf] [HC0 HC1] HL Hm em.
  pose proof (emitted_sublist sdk buffer_size (skeletons c) 0 0) as Hsub. fold em in Hsub.
  split_and!; [|exact Hsub|].
  - rewrite flatten_wf by exact Hlen.
    rewrite skeleton_loop_emits; try assumption; try lia.
    reflexivity.
  - destruct (total_nodes_sublist _ _ Hsub Hwf) as [Hwfe _].
    clear -Hwfe. induction em as [|[sk ni] em IH]; [reflexivity|].
    simpl in Hwfe. inversion Hwfe as [|? ? Hsk Hrest]; subst.
    rewrite emitted_records_cons, length_app, Nat2Z.inj_add, IH by assumption.
    simpl map. rewrite total_nodes_cons, skeleton_records_length by assumption.
    reflexivity.
Qed.

Lemma flatten_output_witness :
  flatten (Sample.sdk_without 7)
          {| skeletons := [Sample.sk3; Sample.sk5; Sample.sk3; Sample.sk5] |}
          6 (Sample.blank 6)
  = Ok (skeleton_records Sample.node_info Sample.sk5 ++ drop 5 (Sample.blank 6), 5).
Proof.
  destruct (flatten_output (Sample.sdk_without 7)
              {| skeletons := [Sample.sk3; Sample.sk5; Sample.sk3; Sample.sk5] |}
              6 (Sample.blank 6)) as (H & _ & _).
  - wf_tac.
  - in_range_tac.
  - simpl. lia.
  - simpl. rewrite modulus_eq. lia.
  - rewrite H. vm_compute. reflexivity.
Defined.

(** ** From the callback to the caller's buffer *)

(** X16. A callback followed by a poll. On a bridge that obeys the
    ownership discipline, when the frame assembled from the SDK's
    outputs has fewer than [2^32] nodes in all and the buffer has the
    [buffer_size] entries declared, the callback completes and the next
    poll completes, and hands the caller the records of the assembled
    frame's emitted skeletons, their number, and status [0], or [-2]
    when that number is [0]. *)
Theorem callback_then_poll (sdk : StreamSDK) (p : SkeletonStreamInfo)
    (lookup : NodeInfoLookup) (w : Process) (b : Bridge)
    (buffer : buffer_t) (buffer_size count : Z) :
  s_Instance w = Some b ->
  slot_inv (b, heap w) ->
  U32.in_range buffer_size ->
  buffer_size <= Z.of_nat (length buffer) ->
  total_nodes (skeletons (assemble sdk p)) < U32.modulus ->
  let em := emitted lookup (skeletons (assemble sdk p)) 0 buffer_size 0 in
  let n := total_nodes (map fst em) in
  exists w1 w2,
    OnRawSkeletonStreamCallback sdk p w = Ok w1 /\
    poll lookup w1 (Some buffer) buffer_size (Some count)
    = Ok {| pr_process := w2;
            pr_buffer := Some (emitted_records em ++ drop (Z.to_nat n) buffer);
            pr_count := Some n;
            pr_status := if n =? 0 then -2 else 0 |}.
Proof.
  intros Hw Hinv HC HL Hm em n.
  rewrite (callback_publishes _ _ _ _ Hw).
  destruct (slot_publish_spec (assemble sdk p) (b, heap w) Hinv)
    as (st1 & Hrun & Hinv1 & Hnext & Hraw & Hlive & Hcr & Hds).
  rewrite Hrun. simpl. exists {| s_Instance := Some (fst st1); heap := snd st1 |}.
  destruct (slot_claim_spec st1 Hinv1) as (b2 & h2 & Hc & _).
  unfold slot_claim in Hc.
  destruct (claim (fst st1) (snd st1)) as [[b2' h2']|] eqn:Hclaim; [|discriminate].
  simpl in Hc.
  pose proof (claim_inv _ _ _ _ Hclaim) as [_ Hb2].
  assert (Hp2 : m_RawSkeleton b2' = Some (created (heap w))).
  { rewrite Hb2. simpl. exact Hnext. }
  rewrite Hp2 in Hc.
  destruct (heap_deref (created (heap w)) h2') as [c2|] eqn:Hd; [|discriminate].
  simpl in Hc. injection Hc as _ _ Hpend.
  unfold slot_pending in Hpend. rewrite Hnext in Hpend. simpl in Hlive, Hpend.
  rewrite Hlive in Hpend. simpl in Hpend. injection Hpend as ->.
  unfold heap_deref in Hd. destruct (live h2' !! created (heap w)) as [c3|] eqn:Hl3;
    [|discriminate]. injection Hd as ->.
  eexists. split; [reflexivity|]. unfold poll. simpl.
  rewrite (Poll_claimed _ _ _ _ _ _ _ _ _ Hclaim Hp2 Hl3).
  pose proof (assemble_wf sdk p) as [Hlen Hwf].
  rewrite flatten_wf by exact Hlen.
  destruct HC as [HC0 HC1].
  rewrite skeleton_loop_emits; try assumption; try lia.
  reflexivity.
Qed.

Lemma callback_then_poll_witness :
  exists w1 w2,
    OnRawSkeletonStreamCallback Sample.stream_ok
      {| si_publishTime := 42; skeletonsCount := 3 |}
      (Sample.process_pending Sample.snapshot35) = Ok w1 /\
    poll Sample.sdk_ok w1 (Some (Sample.blank 5)) 5 (Some 0)
    = Ok {| pr_process := w2;
            pr_buffer :=
              Some (all_records (fun _ => Sample.node_info)
                      (replicate 2 (assemble_skeleton Sample.stream_ok 42 0)) 0
                    ++ drop 4 (Sample.blank 5));
            pr_count := Some 4;
            pr_status := 0 |}.
Proof.
  destruct (callback_then_poll Sample.stream_ok
              {| si_publishTime := 42; skeletonsCount := 3 |}
              Sample.sdk_ok (Sample.process_pending Sample.snapshot35)
              _ (Sample.blank 5) 5 0 eq_refl)
    as (w1 & w2 & H1 & H2).
  - exact (slot_inv_pending Sample.snapshot35).
  - in_range_tac.
  - simpl. lia.
  - rewrite modulus_eq. vm_compute. reflexivity.
  - exists w1, w2. split; [exact H1|]. rewrite H2. vm_compute. reflexivity.
Defined.
